(** * Simple Notes API: a shallow embedding of the notes backend

    The development follows the layering of the Python package
    [notes_backend/src/api]:

    - [PyStr]      the [str] built-ins the code calls ([strip], [rstrip],
                   [len], the [in] substring test);
    - [Exec]       exceptions and the state-and-exception monad in which the
                   repository, service and router methods run;
    - [Note], [NoteBase], [NoteCreate], [NoteUpdate], [Schemas]
                   the pydantic models of [schemas.py];
    - [Repository] [InMemoryNoteRepository] of [repository.py];
    - [Service]    [NoteService] of [service.py];
    - [Router]     the request handlers of [routers_notes.py];
    - [Trace]      sequences of requests and the store states they reach.

    The two reads of the environment, [uuid4()] and [datetime.utcnow()], are
    arguments of the operations that perform them. *)

From Stdlib Require Import String Ascii.
From Stdlib Require Import List ZArith NArith Bool Lia.
Import ListNotations.

(* ================================================================== *)
(** * Python strings *)
(* ================================================================== *)

Module PyStr.

(** A [str] is a sequence of Unicode code points. *)
Definition pystr : Type := list N.

(** ASCII literals, for examples. *)
Fixpoint of_string (s : string) : pystr :=
  match s with
  | EmptyString => []
  | String c r => N_of_ascii c :: of_string r
  end.

(** [len(s)]: the number of code points. *)
Definition len (s : pystr) : Z := Z.of_nat (List.length s).

(** [c.isspace()] for one code point: the whitespace table of CPython
    ([_PyUnicode_IsWhitespace]). *)
Definition isspace (c : N) : bool :=
  ((0x09 <=? c) && (c <=? 0x0D)                (* \t \n \v \f \r *)
   || (0x1C <=? c) && (c <=? 0x20)             (* FS GS RS US, space *)
   || (c =? 0x85) || (c =? 0xA0) || (c =? 0x1680)
   || (0x2000 <=? c) && (c <=? 0x200A)
   || (c =? 0x2028) || (c =? 0x2029) || (c =? 0x202F)
   || (c =? 0x205F) || (c =? 0x3000))%N.

(** [s.lstrip()] *)
Fixpoint lstrip (s : pystr) : pystr :=
  match s with
  | [] => []
  | c :: r => if isspace c then lstrip r else s
  end.

(** [s.rstrip()] *)
Definition rstrip (s : pystr) : pystr := rev (lstrip (rev s)).

(** [s.strip()] *)
Definition strip (s : pystr) : pystr := rstrip (lstrip s).

(** Truth value of a [str]: non-empty. *)
Definition truthy (s : pystr) : bool :=
  match s with [] => false | _ :: _ => true end.

(** [s.startswith(p)] *)
Fixpoint startswith (p s : pystr) : bool :=
  match p, s with
  | [], _ => true
  | _ :: _, [] => false
  | a :: p', b :: s' => (a =? b)%N && startswith p' s'
  end.

(** [sub in s]: [sub] occurs in [s] as a contiguous run. *)
Fixpoint contains (sub s : pystr) : bool :=
  startswith sub s ||
  match s with
  | [] => false
  | _ :: s' => contains sub s'
  end.

(** [s.lower()] on ASCII text: [A]-[Z] go to [a]-[z], every other ASCII
    code point is kept. *)
Definition lower_ascii (s : pystr) : pystr :=
  map (fun c => if (0x41 <=? c) && (c <=? 0x5A) then c + 0x20 else c)%N s.

End PyStr.
Import PyStr.

(* ================================================================== *)
(** * Exceptions, results and the method monad *)
(* ================================================================== *)

Module Exec.

(** The two failures a request can end in: pydantic's [ValidationError]
    (HTTP 422) and [HTTPException(404, "Note not found")]. *)
Inductive error : Type :=
| ValidationError
| NotFound.

Inductive result (A : Type) : Type :=
| Ok (a : A)
| Raise (e : error).
Arguments Ok {A} a.
Arguments Raise {A} e.

Definition rbind {A B} (r : result A) (k : A -> result B) : result B :=
  match r with
  | Ok a => k a
  | Raise e => Raise e
  end.

(** A method run against a store of type [S]: it returns or raises, and
    leaves a store behind either way. *)
Definition M (S A : Type) : Type := S -> result A * S.

Definition ret {S A} (a : A) : M S A := fun s => (Ok a, s).
Definition raise {S A} (e : error) : M S A := fun s => (Raise e, s).
Definition bind {S A B} (m : M S A) (k : A -> M S B) : M S B :=
  fun s =>
    match m s with
    | (Ok a, s') => k a s'
    | (Raise e, s') => (Raise e, s')
    end.
Definition lift {S A} (r : result A) : M S A := fun s => (r, s).
Definition get_store {S} : M S S := fun s => (Ok s, s).
Definition put_store {S} (s : S) : M S unit := fun _ => (Ok tt, s).

End Exec.
Import Exec.

Declare Scope method_scope.
Delimit Scope method_scope with method.
Notation "x <- m ;; k" := (bind m (fun x => k))
  (at level 61, m at next level, right associativity) : method_scope.
Notation "m ;;; k" := (bind m (fun _ => k))
  (at level 61, right associativity) : method_scope.
Notation "x <-? r ;; k" := (rbind r (fun x => k))
  (at level 61, r at next level, right associativity) : method_scope.
Open Scope method_scope.

(* ================================================================== *)
(** * schemas.py *)
(* ================================================================== *)

(** A [UUID], by its 128-bit integer value. *)
Definition UUID : Type := N.
(** A naive UTC [datetime], counted in microseconds. *)
Definition datetime : Type := Z.

(** [Field(min_length=..., max_length=...)] on a [str]: pydantic checks the
    length of the value as received, before any [field_validator] of the
    field runs.  A field declared without [min_length] has the bound 0. *)
Definition Field_str (min_length max_length : Z) (v : pystr) : result pystr :=
  if (min_length <=? len v)%Z && (len v <=? max_length)%Z
  then Ok v else Raise ValidationError.

Module NoteBase.

Definition title_trim_and_validate (v : pystr) : result pystr :=
  let trimmed := strip v in
  if negb (truthy trimmed) then Raise ValidationError else Ok trimmed.

Definition content_sanitize (v : pystr) : result pystr := Ok (rstrip v).

(** [title: str = Field(..., min_length=1, max_length=200)] with its
    validator. *)
Definition title_field (v : pystr) : result pystr :=
  v' <-? Field_str 1 200 v ;; title_trim_and_validate v'.

(** [content: str = Field(default='', max_length=10000)] with its
    validator; the default is taken as it is when the field is omitted. *)
Definition content_field (v : option pystr) : result pystr :=
  match v with
  | None => Ok []
  | Some v => v' <-? Field_str 0 10000 v ;; content_sanitize v'
  end.

End NoteBase.

Module NoteCreate.

Record t : Type := mk { title : pystr; content : pystr }.

(** [NoteCreate(title=..., content=...)] *)
Definition new (title : pystr) (content : option pystr) : result t :=
  title' <-? NoteBase.title_field title ;;
  content' <-? NoteBase.content_field content ;;
  Ok (mk title' content').

End NoteCreate.

Module NoteUpdate.

Record t : Type := mk { title : option pystr; content : option pystr }.

Definition title_optional_trim_and_validate (v : option pystr)
  : result (option pystr) :=
  match v with
  | None => Ok v
  | Some v =>
      let trimmed := strip v in
      if negb (truthy trimmed) then Raise ValidationError
      else Ok (Some trimmed)
  end.

Definition content_optional_trim (v : option pystr) : result (option pystr) :=
  match v with
  | None => Ok v
  | Some v => Ok (Some (rstrip v))
  end.

(** [title: Optional[str] = Field(None, min_length=1, max_length=200)] *)
Definition title_field (v : option pystr) : result (option pystr) :=
  match v with
  | None => Ok None
  | Some s =>
      s' <-? Field_str 1 200 s ;; title_optional_trim_and_validate (Some s')
  end.

(** [content: Optional[str] = Field(None, max_length=10000)] *)
Definition content_field (v : option pystr) : result (option pystr) :=
  match v with
  | None => Ok None
  | Some s =>
      s' <-? Field_str 0 10000 s ;; content_optional_trim (Some s')
  end.

(** [NoteUpdate(title=..., content=...)] *)
Definition new (title content : option pystr) : result t :=
  title' <-? title_field title ;;
  content' <-? content_field content ;;
  Ok (mk title' content').

End NoteUpdate.

Module Note.

Record t : Type := mk {
  id : UUID;
  title : pystr;
  content : pystr;
  created_at : datetime;
  updated_at : datetime
}.

(** [Note(id=..., title=..., content=..., created_at=..., updated_at=...)]:
    [Note] extends [NoteBase], so the two field rules of [NoteBase] run on
    every construction. *)
Definition new (id : UUID) (title content : pystr)
           (created_at updated_at : datetime) : result t :=
  title' <-? NoteBase.title_field title ;;
  content' <-? NoteBase.content_field (Some content) ;;
  Ok (mk id title' content' created_at updated_at).

End Note.

Module Schemas.

(** [new_note_from_create(payload)]; [now] is what [datetime.utcnow()]
    returns and [fresh] what [uuid4()] returns. *)
Definition new_note_from_create (now : datetime) (fresh : UUID)
           (payload : NoteCreate.t) : result Note.t :=
  Note.new fresh (NoteCreate.title payload) (NoteCreate.content payload)
           now now.

End Schemas.

(* ================================================================== *)
(** * repository.py *)
(* ================================================================== *)

(** The [Dict[UUID, Note]] behind the repository.  A Python [dict] keeps its
    entries in insertion order, and [list_notes] hands that order out, so the
    model is an association list: assigning to a key that is present
    replaces the value where it stands, assigning to a new key appends. *)
Module Dict.

Definition t : Type := list (UUID * Note.t).

(** [d.get(k)] *)
Fixpoint get (k : UUID) (d : t) : option Note.t :=
  match d with
  | [] => None
  | (k', v) :: r => if (k =? k')%N then Some v else get k r
  end.

(** [k in d] *)
Definition mem (k : UUID) (d : t) : bool :=
  match get k d with Some _ => true | None => false end.

(** [d[k] = v] *)
Fixpoint set (k : UUID) (v : Note.t) (d : t) : t :=
  match d with
  | [] => [(k, v)]
  | (k', v') :: r =>
      if (k =? k')%N then (k, v) :: r else (k', v') :: set k v r
  end.

(** [del d[k]], for a key that is present *)
Fixpoint del (k : UUID) (d : t) : t :=
  match d with
  | [] => []
  | (k', v') :: r => if (k =? k')%N then r else (k', v') :: del k r
  end.

(** [list(d.values())] *)
Definition values (d : t) : list Note.t := map snd d.

Definition keys (d : t) : list UUID := map fst d.

End Dict.

Module Repository.

(** The state of an [InMemoryNoteRepository]: its [_items].  Every method
    body runs under the repository's lock, one at a time. *)
Definition store : Type := Dict.t.

(** [InMemoryNoteRepository()] *)
Definition init : store := [].

Definition list_notes : M store (list Note.t) :=
  items <- get_store ;;
  ret (Dict.values items).

Definition get_note (note_id : UUID) : M store (option Note.t) :=
  items <- get_store ;;
  ret (Dict.get note_id items).

Definition create_note (note : Note.t) : M store Note.t :=
  items <- get_store ;;
  put_store (Dict.set (Note.id note) note items) ;;;
  ret note.

(** [now] is what [datetime.utcnow()] returns; it is read only once an
    entry was found. *)
Definition update_note (now : datetime) (note_id : UUID)
           (title content : option pystr) : M store (option Note.t) :=
  items <- get_store ;;
  match Dict.get note_id items with
  | None => ret None
  | Some existing =>
      let updated_title :=
        match title with None => Note.title existing | Some t => t end in
      let updated_content :=
        match content with None => Note.content existing | Some c => c end in
      updated <- lift (Note.new (Note.id existing) updated_title
                                updated_content (Note.created_at existing)
                                now) ;;
      put_store (Dict.set note_id updated items) ;;;
      ret (Some updated)
  end.

Definition delete_note (note_id : UUID) : M store bool :=
  items <- get_store ;;
  if Dict.mem note_id items then
    put_store (Dict.del note_id items) ;;;
    ret true
  else ret false.

End Repository.

(* ================================================================== *)
(** * service.py *)
(* ================================================================== *)

Module Service.

Import Repository.

Definition list_notes : M store (list Note.t) :=
  notes <- Repository.list_notes ;;
  ret notes.

Definition get_note (note_id : UUID) : M store Note.t :=
  note <- Repository.get_note note_id ;;
  match note with
  | None => raise NotFound
  | Some note => ret note
  end.

Definition create_note (now : datetime) (fresh : UUID)
           (payload : NoteCreate.t) : M store Note.t :=
  note <- lift (Schemas.new_note_from_create now fresh payload) ;;
  created <- Repository.create_note note ;;
  ret created.

Definition update_note (now : datetime) (note_id : UUID)
           (payload : NoteUpdate.t) : M store Note.t :=
  updated <- Repository.update_note now note_id
               (NoteUpdate.title payload) (NoteUpdate.content payload) ;;
  match updated with
  | None => raise NotFound
  | Some updated => ret updated
  end.

Definition delete_note (note_id : UUID) : M store unit :=
  ok <- Repository.delete_note note_id ;;
  if negb ok then raise NotFound else ret tt.

End Service.

(* ================================================================== *)
(** * routers_notes.py *)
(* ================================================================== *)

(** The handlers the application mounts.  The framework builds the payload
    model from the request body before it calls the handler, so a body that
    fails validation never reaches the service. *)
Module Router.

Import Repository.

Section ListNotes.

(** [str.lower], whose Unicode tables are not part of this repository. *)
Variable lower : pystr -> pystr.

Definition list_notes (q : option pystr) : M store (list Note.t) :=
  notes <- Service.list_notes ;;
  match q with
  | Some q =>
      if truthy q then
        let q_norm := lower (strip q) in
        ret (filter (fun n => contains q_norm (lower (Note.title n)))
                    notes)
      else ret notes
  | None => ret notes
  end.

(** The handler of the second router module, [routers/notes.py], which
    the application does not mount: it tests [q_norm] once more. *)
Definition list_notes_alt (q : option pystr) : M store (list Note.t) :=
  notes <- Service.list_notes ;;
  match q with
  | Some q =>
      if truthy q then
        let q_norm := lower (strip q) in
        if truthy q_norm then
          ret (filter (fun n => contains q_norm (lower (Note.title n)))
                      notes)
        else ret notes
      else ret notes
  | None => ret notes
  end.

End ListNotes.

Definition get_note (note_id : UUID) : M store Note.t :=
  Service.get_note note_id.

Definition create_note (now : datetime) (fresh : UUID)
           (title : pystr) (content : option pystr) : M store Note.t :=
  payload <- lift (NoteCreate.new title content) ;;
  Service.create_note now fresh payload.

Definition update_note (now : datetime) (note_id : UUID)
           (title content : option pystr) : M store Note.t :=
  payload <- lift (NoteUpdate.new title content) ;;
  Service.update_note now note_id payload.

Definition delete_note (note_id : UUID) : M store unit :=
  Service.delete_note note_id.

End Router.

(* ================================================================== *)
(** * Sequences of requests *)
(* ================================================================== *)

Module Trace.

Import Repository.

(** A mutating request, with what the environment answers while it is
    served. *)
Inductive request : Type :=
| Create (now : datetime) (fresh : UUID) (title : pystr)
         (content : option pystr)
| Update (now : datetime) (note_id : UUID) (title content : option pystr)
| Delete (note_id : UUID).
Arguments Create now%_Z fresh%_N title content.
Arguments Update now%_Z note_id%_N title content.
Arguments Delete note_id%_N.

(** The store a request leaves behind, whether it succeeds or raises. *)
Definition handle (st : store) (r : request) : store :=
  match r with
  | Create now fresh title content =>
      snd (Router.create_note now fresh title content st)
  | Update now note_id title content =>
      snd (Router.update_note now note_id title content st)
  | Delete note_id => snd (Router.delete_note note_id st)
  end.

Definition run_from (st : store) (rs : list request) : store :=
  fold_left handle rs st.

Definition run (rs : list request) : store := run_from Repository.init rs.

(** The states of a repository that has served some requests since the
    process started. *)
Definition reachable (st : store) : Prop := exists rs, st = run rs.

(** The clock readings of a sequence of requests, in order. *)
Definition clock (r : request) : list datetime :=
  match r with
  | Create now _ _ _ => [now]
  | Update now _ _ _ => [now]
  | Delete _ => []
  end.

Definition readings (rs : list request) : list datetime :=
  flat_map clock rs.

Fixpoint nondecreasing (l : list datetime) : bool :=
  match l with
  | a :: (b :: _) as r => (a <=? b)%Z && nondecreasing r
  | _ => true
  end.

End Trace.

(* ================================================================== *)
(** * What the models guarantee of their instances *)
(* ================================================================== *)

(** A [Note] that came out of [Note.new]. *)
Definition Note_ok (n : Note.t) : Prop :=
  strip (Note.title n) = Note.title n /\
  Note.title n <> [] /\
  (1 <= len (Note.title n) <= 200)%Z /\
  rstrip (Note.content n) = Note.content n /\
  (len (Note.content n) <= 10000)%Z.

(** A store whose keys are distinct, every note filed under its own id and
    every note a validated one. *)
Definition store_ok (st : Repository.store) : Prop :=
  NoDup (Dict.keys st) /\
  forall k n, In (k, n) st -> Note.id n = k /\ Note_ok n.

(** [sub] occurs in [s], said with concatenation. *)
Definition substring (sub s : pystr) : Prop :=
  exists pre post, s = pre ++ sub ++ post.

(** The content of a create request: what it carries, or the default of the
    field, the empty string. *)
Definition content_of (content : option pystr) : pystr :=
  match content with Some c => c | None => [] end.

(** A content that passes [max_length=10000], or is left out. *)
Definition content_len_ok (content : option pystr) : Prop :=
  match content with
  | None => True
  | Some c => (len c <= 10000)%Z
  end.

(** ["a"] followed by 200 spaces. *)
Definition padded_title : pystr := 97%N :: repeat 32%N 200.

(** No stored title is empty or blank. *)
Definition titles_ok (st : Repository.store) : Prop :=
  forall n, In n (Dict.values st) ->
            Note.title n <> [] /\ strip (Note.title n) <> [].

(** No stored note was updated before it was created. *)
Definition stamps_ok (st : Repository.store) : Prop :=
  forall n, In n (Dict.values st) ->
            (Note.created_at n <= Note.updated_at n)%Z.

(** Every stored note is in order and was created no later than [lo]. *)
Definition stamped_by (lo : datetime) (st : Repository.store) : Prop :=
  forall n, In n (Dict.values st) ->
            (Note.created_at n <= Note.updated_at n)%Z /\
            (Note.created_at n <= lo)%Z.

(** A string of ASCII code points. *)
Definition is_ascii (s : pystr) : bool := forallb (fun c => c <? 128)%N s.

(* ================================================================== *)
(** * More string built-ins *)
(* ================================================================== *)

Module PyStrExt.

(** [a == b] on two [str]. *)
Fixpoint eqb (a b : pystr) : bool :=
  match a, b with
  | [], [] => true
  | x :: a', y :: b' => (x =? y)%N && eqb a' b'
  | _, _ => false
  end.

(** [s.split(sep)] for a separator of one code point: the pieces between
    the separators, of which there is always at least one. *)
Fixpoint split (sep : N) (s : pystr) : list pystr :=
  match s with
  | [] => [[]]
  | c :: r =>
      if (c =? sep)%N then [] :: split sep r
      else match split sep r with
           | piece :: pieces => (c :: piece) :: pieces
           | [] => [[c]]
           end
  end.

(** [s.upper()] on ASCII text: [a]-[z] go to [A]-[Z], every other ASCII
    code point is kept. *)
Definition upper_ascii (s : pystr) : pystr :=
  map (fun c => if (0x61 <=? c) && (c <=? 0x7A) then c - 0x20 else c)%N s.

(** Every code point of [s] is whitespace. *)
Definition all_space (s : pystr) : bool := forallb isspace s.

(** The comma. *)
Definition comma : N := 44%N.

End PyStrExt.

(* ================================================================== *)
(** * logging_config.py *)
(* ================================================================== *)

Module LoggingConfig.

(** The level constants of the [logging] module. *)
Definition CRITICAL : Z := 50.
Definition ERROR : Z := 40.
Definition WARNING : Z := 30.
Definition INFO : Z := 20.
Definition DEBUG : Z := 10.
Definition NOTSET : Z := 0.

Definition mapping : list (pystr * Z) :=
  [ (of_string "CRITICAL", CRITICAL);
    (of_string "ERROR", ERROR);
    (of_string "WARNING", WARNING);
    (of_string "INFO", INFO);
    (of_string "DEBUG", DEBUG);
    (of_string "NOTSET", NOTSET) ].

(** [d.get(k, default)] on a dictionary with [str] keys. *)
Fixpoint dict_get (k : pystr) (d : list (pystr * Z)) (default : Z) : Z :=
  match d with
  | [] => default
  | (k', v) :: r => if PyStrExt.eqb k k' then v else dict_get k r default
  end.

(** A [logging.Formatter], by its two format strings. *)
Record Formatter : Type := mkFormatter { fmt : pystr; datefmt : pystr }.

(** A handler of the root logger: its level and its formatter, if it has
    one. *)
Record Handler : Type :=
  mkHandler { handler_level : Z; handler_formatter : option Formatter }.

(** The root logger, [logging.getLogger()]: its level and its handlers. *)
Record RootLogger : Type :=
  mkRootLogger { level : Z; handlers : list Handler }.

Section ParseLogLevel.

(** [str.upper], whose Unicode tables are not part of this repository. *)
Variable upper : pystr -> pystr.

Definition _parse_log_level (level : option pystr) : Z :=
  match level with
  | None => INFO
  | Some level =>
      if negb (truthy level) then INFO
      else
        let normalized := upper (strip level) in
        dict_get normalized mapping INFO
  end.

(** [configure_logging()]; [env] is the value of [REACT_APP_LOG_LEVEL] in
    the environment, if it is set, and [root] the root logger as the call
    finds it. *)
Definition configure_logging (env : option pystr) (root : RootLogger)
  : RootLogger :=
  let level :=
    _parse_log_level
      (Some (match env with Some v => v | None => of_string "INFO" end)) in
  match handlers root with
  | _ :: _ =>
      mkRootLogger level
        (map (fun h => mkHandler level (handler_formatter h)) (handlers root))
  | [] =>
      let formatter :=
        mkFormatter
          (of_string "%(asctime)s | %(levelname)s | %(name)s | %(message)s")
          (of_string "%Y-%m-%dT%H:%M:%S%z") in
      let stream_handler := mkHandler level (Some formatter) in
      mkRootLogger level (handlers root ++ [stream_handler])
  end.

End ParseLogLevel.

End LoggingConfig.

(* ================================================================== *)
(** * main.py *)
(* ================================================================== *)

Module Main.

(** The [allow_origins] list handed to the CORS middleware; [env] is the
    value of [REACT_APP_FRONTEND_URL] in the environment, if it is set. *)
Definition allow_origins (env : option pystr) : list pystr :=
  let default_origins :=
    match env with Some v => v | None => of_string "*" end in
  if truthy default_origins then
    map strip
        (filter (fun o => truthy (strip o))
                (PyStrExt.split PyStrExt.comma default_origins))
  else [of_string "*"].

End Main.

(* ================================================================== *)
(** * The service singleton of routers_notes.py *)
(* ================================================================== *)

Module Deps.

Import Repository.

(** The module global [_SERVICE_SINGLETON]: [None], or the one
    [NoteService], known here by the items of the repository it holds. *)
Definition singleton : Type := option store.

(** [get_service()]: the service, and the global as the call leaves it. *)
Definition get_service (g : singleton) : store * singleton :=
  match g with
  | Some service => (service, g)
  | None =>
      let repo := Repository.init in
      (repo, Some repo)
  end.

(** A handler run with [service = Depends(get_service)].  The service the
    handler works on is the object the global holds, so what the handler
    does to the repository is what the global holds afterwards. *)
Definition depends {A} (handler : M store A) : M singleton A :=
  fun g =>
    let (service, _) := get_service g in
    let (r, service') := handler service in
    (r, Some service').

(** The global after one mutating request was served. *)
Definition serve (g : singleton) (r : Trace.request) : singleton :=
  match r with
  | Trace.Create now fresh title content =>
      snd (depends (Router.create_note now fresh title content) g)
  | Trace.Update now note_id title content =>
      snd (depends (Router.update_note now note_id title content) g)
  | Trace.Delete note_id => snd (depends (Router.delete_note note_id) g)
  end.

End Deps.

(* ================================================================== *)
(** * Runs of create requests *)
(* ================================================================== *)

(** What a create request carries and what the environment answers while it
    is served: the clock reading, the id drawn, the title and the content. *)
Definition create_request : Type := datetime * UUID * pystr * option pystr.

Definition as_request (c : create_request) : Trace.request :=
  let '(now, fresh, title, content) := c in
  Trace.Create now fresh title content.

Definition fresh_of (c : create_request) : UUID :=
  let '(_, fresh, _, _) := c in fresh.

(** The request passes [NoteCreate]. *)
Definition create_ok (c : create_request) : Prop :=
  let '(_, _, title, content) := c in
  exists payload, NoteCreate.new title content = Ok payload.

(** The note a valid create request makes. *)
Definition note_of (c : create_request) : Note.t :=
  let '(now, fresh, title, content) := c in
  Note.mk fresh (strip title) (rstrip (content_of content)) now now.

(* ================================================================== *)
(** * Facts about the string built-ins *)
(* ================================================================== *)

Section PyStrFacts.

Lemma len_nonneg (s : pystr) : (0 <= len s)%Z.
Proof. unfold len; lia. Qed.

Lemma len_zero_iff (s : pystr) : len s = 0%Z <-> s = [].
Proof.
  unfold len; destruct s; simpl; split; intro H; try reflexivity;
    try discriminate; lia.
Qed.

Lemma truthy_iff (s : pystr) : truthy s = true <-> s <> [].
Proof. destruct s; simpl; split; congruence. Qed.

Lemma lstrip_length (s : pystr) : (length (lstrip s) <= length s)%nat.
Proof.
  induction s as [|c r IH]; simpl; [lia|].
  destruct (isspace c); simpl; lia.
Qed.

Lemma lstrip_head (s : pystr) :
  lstrip s = [] \/ exists c r, lstrip s = c :: r /\ isspace c = false.
Proof.
  induction s as [|c r IH]; simpl; [now left|].
  destruct (isspace c) eqn:E; [exact IH|].
  right; exists c, r; split; [reflexivity | exact E].
Qed.

Lemma lstrip_nonspace (c : N) (r : pystr) :
  isspace c = false -> lstrip (c :: r) = c :: r.
Proof. intro E; simpl; now rewrite E. Qed.

Lemma lstrip_idem (s : pystr) : lstrip (lstrip s) = lstrip s.
Proof.
  destruct (lstrip_head s) as [E | (c & r & E & Hc)]; rewrite E;
    [reflexivity | now apply lstrip_nonspace].
Qed.

Lemma lstrip_snoc_nonspace (a : pystr) (c : N) :
  isspace c = false -> lstrip (a ++ [c]) = lstrip a ++ [c].
Proof.
  intro E; induction a as [|x a IH]; simpl.
  - now rewrite E.
  - destruct (isspace x); [exact IH | reflexivity].
Qed.

Lemma rstrip_length (s : pystr) : (length (rstrip s) <= length s)%nat.
Proof.
  unfold rstrip; rewrite length_rev.
  pose proof (lstrip_length (rev s)) as H.
  now rewrite length_rev in H.
Qed.

Lemma rstrip_idem (s : pystr) : rstrip (rstrip s) = rstrip s.
Proof. unfold rstrip; now rewrite rev_involutive, lstrip_idem. Qed.

Lemma rstrip_cons_nonspace (c : N) (r : pystr) :
  isspace c = false -> rstrip (c :: r) = c :: rstrip r.
Proof.
  intro E; unfold rstrip; simpl.
  rewrite (lstrip_snoc_nonspace _ _ E), rev_app_distr; reflexivity.
Qed.

Lemma strip_length (s : pystr) : (length (strip s) <= length s)%nat.
Proof.
  unfold strip.
  pose proof (rstrip_length (lstrip s)); pose proof (lstrip_length s); lia.
Qed.

Lemma rstrip_strip (s : pystr) : rstrip (strip s) = strip s.
Proof. unfold strip; apply rstrip_idem. Qed.

Lemma lstrip_strip (s : pystr) : lstrip (strip s) = strip s.
Proof.
  unfold strip.
  destruct (lstrip_head s) as [E | (c & r & E & Hc)]; rewrite E.
  - reflexivity.
  - rewrite (rstrip_cons_nonspace _ _ Hc); now apply lstrip_nonspace.
Qed.

Lemma strip_idem (s : pystr) : strip (strip s) = strip s.
Proof.
  unfold strip at 1; rewrite lstrip_strip; apply rstrip_strip.
Qed.

Lemma len_strip_le (s : pystr) : (len (strip s) <= len s)%Z.
Proof. unfold len; pose proof (strip_length s); lia. Qed.

Lemma len_rstrip_le (s : pystr) : (len (rstrip s) <= len s)%Z.
Proof. unfold len; pose proof (rstrip_length s); lia. Qed.

Lemma startswith_iff (p s : pystr) :
  startswith p s = true <-> exists post, s = p ++ post.
Proof.
  revert s; induction p as [|a p IH]; intros s; simpl.
  - split; [intros _; now exists s | reflexivity].
  - destruct s as [|b s].
    + split; [discriminate | intros (post & H); discriminate].
    + rewrite andb_true_iff, N.eqb_eq, IH; split.
      * intros (-> & post & ->); now exists post.
      * intros (post & H); injection H as -> ->; split; [easy|now exists post].
Qed.

Lemma contains_iff (sub s : pystr) :
  contains sub s = true <-> substring sub s.
Proof.
  unfold substring; induction s as [|b s IH]; simpl.
  - rewrite orb_false_r, startswith_iff; split.
    + intros (post & H); now exists [], post.
    + intros (pre & post & H).
      destruct pre; [now exists post | discriminate].
  - rewrite orb_true_iff, startswith_iff, IH; split.
    + intros [(post & H) | (pre & post & H)].
      * now exists [], post.
      * exists (b :: pre), post; simpl; now rewrite H.
    + intros (pre & post & H); destruct pre as [|x pre]; simpl in H.
      * left; now exists post.
      * right; injection H as _ H; now exists pre, post.
Qed.

Lemma contains_empty (s : pystr) : contains [] s = true.
Proof. destruct s; reflexivity. Qed.

End PyStrFacts.

(* ================================================================== *)
(** * Facts about the schemas *)
(* ================================================================== *)

Section SchemaFacts.

Lemma Field_str_Ok (lo hi : Z) (v w : pystr) :
  Field_str lo hi v = Ok w <-> (lo <= len v <= hi)%Z /\ w = v.
Proof.
  unfold Field_str.
  destruct (Z.leb_spec lo (len v)), (Z.leb_spec (len v) hi); simpl;
    split; try discriminate; try (intros [? ?]; lia).
  - intros [= ->]; split; [lia | reflexivity].
  - intros [_ ->]; reflexivity.
Qed.

Lemma Field_str_Raise (lo hi : Z) (v : pystr) (e : error) :
  Field_str lo hi v = Raise e -> e = ValidationError.
Proof.
  unfold Field_str; destruct (_ && _); [discriminate | now intros [= <-]].
Qed.

Lemma title_trim_and_validate_Ok (v t : pystr) :
  NoteBase.title_trim_and_validate v = Ok t <-> strip v <> [] /\ t = strip v.
Proof.
  unfold NoteBase.title_trim_and_validate; cbv zeta.
  destruct (strip v) as [|c r]; simpl; split.
  - discriminate.
  - intros [H _]; now elim H.
  - intros [= <-]; split; [discriminate | reflexivity].
  - intros [_ ->]; reflexivity.
Qed.

Lemma title_field_Ok (v t : pystr) :
  NoteBase.title_field v = Ok t <->
  (1 <= len v <= 200)%Z /\ strip v <> [] /\ t = strip v.
Proof.
  unfold NoteBase.title_field.
  destruct (Field_str 1 200 v) as [w|e] eqn:E; simpl.
  - apply Field_str_Ok in E as [Hl ->].
    rewrite title_trim_and_validate_Ok; tauto.
  - split; [discriminate|].
    intros (Hl & _).
    assert (Field_str 1 200 v = Ok v) as E' by (apply Field_str_Ok; auto).
    congruence.
Qed.

Lemma title_field_Raise (v : pystr) (e : error) :
  NoteBase.title_field v = Raise e -> e = ValidationError.
Proof.
  unfold NoteBase.title_field, NoteBase.title_trim_and_validate.
  destruct (Field_str 1 200 v) as [w|e'] eqn:E; simpl.
  - destruct (negb (truthy (strip w))); [now intros [= <-] | discriminate].
  - intros [= <-]; eapply Field_str_Raise; eauto.
Qed.

Lemma content_field_Some_Ok (v c : pystr) :
  NoteBase.content_field (Some v) = Ok c <->
  (len v <= 10000)%Z /\ c = rstrip v.
Proof.
  unfold NoteBase.content_field, NoteBase.content_sanitize.
  destruct (Field_str 0 10000 v) as [w|e] eqn:E; simpl.
  - apply Field_str_Ok in E as [Hl ->].
    split; [intros [= <-]; split; [lia | reflexivity] | now intros [_ ->]].
  - split; [discriminate|].
    intros (Hl & _).
    assert (Field_str 0 10000 v = Ok v) as E'
        by (apply Field_str_Ok; pose proof (len_nonneg v); auto with zarith).
    congruence.
Qed.

Lemma content_field_Raise (v : option pystr) (e : error) :
  NoteBase.content_field v = Raise e -> e = ValidationError.
Proof.
  destruct v as [v|]; simpl; [|discriminate].
  unfold NoteBase.content_sanitize.
  destruct (Field_str 0 10000 v) as [w|e'] eqn:E; simpl;
    [discriminate | intros [= <-]; eapply Field_str_Raise; eauto].
Qed.

Lemma Note_new_Ok i t c ca ua n :
  Note.new i t c ca ua = Ok n <->
  (1 <= len t <= 200)%Z /\ strip t <> [] /\ (len c <= 10000)%Z /\
  n = Note.mk i (strip t) (rstrip c) ca ua.
Proof.
  unfold Note.new.
  destruct (NoteBase.title_field t) as [t'|e] eqn:Et; cbn [rbind].
  - apply title_field_Ok in Et as (Hl & Hne & ->).
    destruct (NoteBase.content_field (Some c)) as [c'|e] eqn:Ec; cbn [rbind].
    + apply content_field_Some_Ok in Ec as (Hc & ->).
      split; [intros [= <-]; auto | intros (_ & _ & _ & ->); reflexivity].
    + split; [discriminate|]; intros (_ & _ & Hc & _).
      assert (NoteBase.content_field (Some c) = Ok (rstrip c))
        by (apply content_field_Some_Ok; auto).
      congruence.
  - split; [discriminate|]; intros (Hl & Hne & _).
    assert (NoteBase.title_field t = Ok (strip t))
      by (apply title_field_Ok; auto).
    congruence.
Qed.

Lemma strip_len_bounds (t : pystr) :
  (len t <= 200)%Z -> strip t <> [] -> (1 <= len (strip t) <= 200)%Z.
Proof.
  intros Hl Hne; pose proof (len_strip_le t); pose proof (len_nonneg (strip t)).
  destruct (Z.eq_dec (len (strip t)) 0) as [E|E]; [|lia].
  apply len_zero_iff in E; contradiction.
Qed.

Lemma Note_new_ok i t c ca ua n :
  Note.new i t c ca ua = Ok n -> Note_ok n.
Proof.
  intros H; apply Note_new_Ok in H as (Hl & Hne & Hc & ->).
  unfold Note_ok; simpl.
  rewrite strip_idem, rstrip_idem.
  pose proof (len_rstrip_le c).
  repeat split; auto; try (apply strip_len_bounds; auto; lia); lia.
Qed.

Lemma NoteCreate_new_Ok t c p :
  NoteCreate.new t c = Ok p <->
  (1 <= len t <= 200)%Z /\ strip t <> [] /\
  match c with
  | None => p = NoteCreate.mk (strip t) []
  | Some c => (len c <= 10000)%Z /\ p = NoteCreate.mk (strip t) (rstrip c)
  end.
Proof.
  unfold NoteCreate.new.
  destruct (NoteBase.title_field t) as [t'|e] eqn:Et; cbn [rbind].
  - apply title_field_Ok in Et as (Hl & Hne & ->).
    destruct c as [c|].
    + destruct (NoteBase.content_field (Some c)) as [c'|e] eqn:Ec; cbn [rbind].
      * apply content_field_Some_Ok in Ec as (Hc & ->).
        split; [intros [= <-]; auto | intros (_ & _ & _ & ->); reflexivity].
      * split; [discriminate|]; intros (_ & _ & Hc & _).
        assert (NoteBase.content_field (Some c) = Ok (rstrip c))
          by (apply content_field_Some_Ok; auto).
        congruence.
    + simpl; split; [intros [= <-]; auto | intros (_ & _ & ->); reflexivity].
  - split; [discriminate|]; intros (Hl & Hne & _).
    assert (NoteBase.title_field t = Ok (strip t))
      by (apply title_field_Ok; auto).
    congruence.
Qed.

Lemma NoteCreate_new_Raise t c e :
  NoteCreate.new t c = Raise e -> e = ValidationError.
Proof.
  unfold NoteCreate.new.
  destruct (NoteBase.title_field t) as [t'|e'] eqn:Et; cbn [rbind].
  - destruct (NoteBase.content_field c) as [c'|e'] eqn:Ec; cbn [rbind];
      [discriminate | intros [= <-]; eapply content_field_Raise; eauto].
  - intros [= <-]; eapply title_field_Raise; eauto.
Qed.

End SchemaFacts.

Section UpdateSchemaFacts.

Lemma NoteUpdate_title_field_Ok (v r : option pystr) :
  NoteUpdate.title_field v = Ok r <->
  match v with
  | None => r = None
  | Some s => (1 <= len s <= 200)%Z /\ strip s <> [] /\ r = Some (strip s)
  end.
Proof.
  destruct v as [s|]; simpl.
  - destruct (Field_str 1 200 s) as [w|e] eqn:E; cbn [rbind].
    + apply Field_str_Ok in E as [Hl ->]; simpl.
      destruct (strip s) as [|c t]; simpl; split.
      * discriminate.
      * intros (_ & H & _); now elim H.
      * intros [= <-]; repeat split; try lia; try discriminate.
      * intros (_ & _ & ->); reflexivity.
    + split; [discriminate|]; intros (Hl & _).
      assert (Field_str 1 200 s = Ok s) by (apply Field_str_Ok; auto).
      congruence.
  - split; [now intros [= <-] | now intros ->].
Qed.

Lemma NoteUpdate_title_field_Raise (v : option pystr) (e : error) :
  NoteUpdate.title_field v = Raise e -> e = ValidationError.
Proof.
  destruct v as [s|]; simpl; [|discriminate].
  destruct (Field_str 1 200 s) as [w|e'] eqn:E; cbn [rbind].
  - simpl; destruct (negb (truthy (strip w)));
      [now intros [= <-] | discriminate].
  - intros [= <-]; eapply Field_str_Raise; eauto.
Qed.

Lemma NoteUpdate_content_field_Ok (v r : option pystr) :
  NoteUpdate.content_field v = Ok r <->
  match v with
  | None => r = None
  | Some s => (len s <= 10000)%Z /\ r = Some (rstrip s)
  end.
Proof.
  destruct v as [s|]; simpl.
  - destruct (Field_str 0 10000 s) as [w|e] eqn:E; cbn [rbind].
    + apply Field_str_Ok in E as [Hl ->]; simpl.
      split; [intros [= <-]; split; [lia | reflexivity] | now intros [_ ->]].
    + split; [discriminate|]; intros (Hl & _).
      assert (Field_str 0 10000 s = Ok s)
        by (apply Field_str_Ok; pose proof (len_nonneg s); auto with zarith).
      congruence.
  - split; [now intros [= <-] | now intros ->].
Qed.

Lemma NoteUpdate_content_field_Raise (v : option pystr) (e : error) :
  NoteUpdate.content_field v = Raise e -> e = ValidationError.
Proof.
  destruct v as [s|]; simpl; [|discriminate].
  destruct (Field_str 0 10000 s) as [w|e'] eqn:E; cbn [rbind];
    [discriminate | intros [= <-]; eapply Field_str_Raise; eauto].
Qed.

Lemma NoteUpdate_new_Ok (t c : option pystr) (p : NoteUpdate.t) :
  NoteUpdate.new t c = Ok p <->
  (exists t' c', NoteUpdate.title_field t = Ok t' /\
                 NoteUpdate.content_field c = Ok c' /\
                 p = NoteUpdate.mk t' c').
Proof.
  unfold NoteUpdate.new.
  destruct (NoteUpdate.title_field t) as [t'|e]; cbn [rbind].
  - destruct (NoteUpdate.content_field c) as [c'|e]; cbn [rbind]; split.
    + intros [= <-]; now exists t', c'.
    + intros (? & ? & [= <-] & [= <-] & ->); reflexivity.
    + discriminate.
    + intros (? & ? & _ & ? & _); discriminate.
  - split; [discriminate | intros (? & ? & ? & _); discriminate].
Qed.

Lemma NoteUpdate_new_Raise (t c : option pystr) (e : error) :
  NoteUpdate.new t c = Raise e -> e = ValidationError.
Proof.
  unfold NoteUpdate.new.
  destruct (NoteUpdate.title_field t) as [t'|e'] eqn:Et; cbn [rbind].
  - destruct (NoteUpdate.content_field c) as [c'|e'] eqn:Ec; cbn [rbind];
      [discriminate | intros [= <-]; eapply NoteUpdate_content_field_Raise; eauto].
  - intros [= <-]; eapply NoteUpdate_title_field_Raise; eauto.
Qed.

End UpdateSchemaFacts.

(* ================================================================== *)
(** * Facts about the dictionary *)
(* ================================================================== *)

Section DictFacts.

Implicit Types (d : Dict.t) (k : UUID) (v n : Note.t).

Lemma get_In k d n : Dict.get k d = Some n -> In (k, n) d.
Proof.
  induction d as [|[k' v'] r IH]; simpl; [discriminate|].
  destruct (N.eqb_spec k k') as [->|Hne].
  - intros [= ->]; now left.
  - intro H; right; auto.
Qed.

Lemma get_None_keys k d : Dict.get k d = None <-> ~ In k (Dict.keys d).
Proof.
  induction d as [|[k' v'] r IH]; simpl; [tauto|].
  destruct (N.eqb_spec k k') as [->|Hne].
  - split; [discriminate | intros H; elim H; now left].
  - rewrite IH; split; [intros H [E|E]; [congruence | tauto] | tauto].
Qed.

Lemma get_set_same k v d : Dict.get k (Dict.set k v d) = Some v.
Proof.
  induction d as [|[k' v'] r IH]; simpl.
  - now rewrite N.eqb_refl.
  - destruct (N.eqb_spec k k') as [->|Hne]; simpl.
    + now rewrite N.eqb_refl.
    + destruct (N.eqb_spec k k'); [contradiction | exact IH].
Qed.

Lemma get_set_other k k' v d :
  k' <> k -> Dict.get k' (Dict.set k v d) = Dict.get k' d.
Proof.
  intro Hne; induction d as [|[k0 v0] r IH]; simpl.
  - destruct (N.eqb_spec k' k); [contradiction | reflexivity].
  - destruct (N.eqb_spec k k0) as [->|Hk]; simpl.
    + destruct (N.eqb_spec k' k0); [contradiction | reflexivity].
    + destruct (N.eqb_spec k' k0); [reflexivity | exact IH].
Qed.

Lemma In_set k v d x :
  In x (Dict.set k v d) -> x = (k, v) \/ In x d.
Proof.
  induction d as [|[k' v'] r IH]; simpl.
  - intros [<-|[]]; now left.
  - destruct (N.eqb_spec k k') as [->|Hne]; simpl.
    + intros [<-|H]; [now left | right; now right].
    + intros [<-|H]; [right; now left|].
      destruct (IH H); [now left | right; now right].
Qed.

Lemma keys_set k v d :
  Dict.keys (Dict.set k v d) =
  if Dict.mem k d then Dict.keys d else Dict.keys d ++ [k].
Proof.
  unfold Dict.mem; induction d as [|[k' v'] r IH]; simpl; [reflexivity|].
  destruct (N.eqb_spec k k') as [->|Hne]; simpl; [reflexivity|].
  rewrite IH; destruct (Dict.get k r); reflexivity.
Qed.

Lemma NoDup_snoc (l : list UUID) (x : UUID) :
  NoDup l -> ~ In x l -> NoDup (l ++ [x]).
Proof.
  induction l as [|a l IH]; simpl; intros Hnd Hni.
  - constructor; [tauto | constructor].
  - inversion Hnd as [|? ? Ha Hl]; subst; constructor.
    + rewrite in_app_iff; simpl; intros [H|[H|[]]]; [tauto | subst; tauto].
    + apply IH; tauto.
Qed.

Lemma NoDup_set k v d :
  NoDup (Dict.keys d) -> NoDup (Dict.keys (Dict.set k v d)).
Proof.
  intro Hnd; rewrite keys_set; unfold Dict.mem.
  destruct (Dict.get k d) eqn:E; [exact Hnd|].
  apply get_None_keys in E; now apply NoDup_snoc.
Qed.

Lemma In_del k d x : In x (Dict.del k d) -> In x d.
Proof.
  induction d as [|[k' v'] r IH]; simpl; [tauto|].
  destruct (N.eqb_spec k k') as [->|Hne]; simpl; [tauto|].
  intros [<-|H]; [now left | right; auto].
Qed.

Lemma In_keys_del k d k' :
  In k' (Dict.keys (Dict.del k d)) -> In k' (Dict.keys d).
Proof.
  induction d as [|[k0 v0] r IH]; simpl; [tauto|].
  destruct (N.eqb_spec k k0) as [->|Hne]; simpl; [tauto|].
  intros [<-|H]; [now left | right; auto].
Qed.

Lemma NoDup_del k d : NoDup (Dict.keys d) -> NoDup (Dict.keys (Dict.del k d)).
Proof.
  induction d as [|[k' v'] r IH]; simpl; [auto|].
  intro Hnd; inversion Hnd as [|? ? Hni Hnd']; subst.
  destruct (N.eqb_spec k k') as [->|Hne]; simpl; [exact Hnd'|].
  constructor; [intro H; apply Hni; eapply In_keys_del; eauto | auto].
Qed.

Lemma get_del_same k d : NoDup (Dict.keys d) -> Dict.get k (Dict.del k d) = None.
Proof.
  induction d as [|[k' v'] r IH]; simpl; [reflexivity|].
  intro Hnd; inversion Hnd as [|? ? Hni Hnd']; subst.
  destruct (N.eqb_spec k k') as [->|Hne]; simpl.
  - now apply get_None_keys.
  - destruct (N.eqb_spec k k'); [contradiction | auto].
Qed.

Lemma get_del_other k k' d :
  k' <> k -> Dict.get k' (Dict.del k d) = Dict.get k' d.
Proof.
  intro Hne; induction d as [|[k0 v0] r IH]; simpl; [reflexivity|].
  destruct (N.eqb_spec k k0) as [->|Hk]; simpl.
  - destruct (N.eqb_spec k' k0); [contradiction | reflexivity].
  - destruct (N.eqb_spec k' k0); [reflexivity | exact IH].
Qed.

Lemma In_values_iff d n :
  In n (Dict.values d) <-> exists k, In (k, n) d.
Proof.
  unfold Dict.values; rewrite in_map_iff; split.
  - intros ([k v] & <- & H); now exists k.
  - intros (k & H); now exists (k, n).
Qed.

End DictFacts.

(* ================================================================== *)
(** * The methods, as equations on the store *)
(* ================================================================== *)

Ltac unfold_methods :=
  unfold Router.get_note, Router.create_note, Router.update_note,
    Router.delete_note, Service.get_note, Service.create_note,
    Service.update_note, Service.delete_note, Service.list_notes,
    Repository.get_note, Repository.create_note, Repository.update_note,
    Repository.delete_note, Repository.list_notes,
    Schemas.new_note_from_create,
    bind, ret, raise, lift, get_store, put_store.

Section MethodEquations.

Import Repository.
Implicit Types (st : store) (k : UUID) (now : datetime).

Lemma get_note_eq k st :
  Service.get_note k st =
  match Dict.get k st with
  | Some n => (Ok n, st)
  | None => (Raise NotFound, st)
  end.
Proof. unfold_methods; destruct (Dict.get k st); reflexivity. Qed.

Lemma create_note_eq now fresh p st :
  Service.create_note now fresh p st =
  match Note.new fresh (NoteCreate.title p) (NoteCreate.content p) now now with
  | Ok n => (Ok n, Dict.set (Note.id n) n st)
  | Raise e => (Raise e, st)
  end.
Proof. unfold_methods; destruct (Note.new _ _ _ _ _); reflexivity. Qed.

Lemma update_note_eq now k p st :
  Service.update_note now k p st =
  match Dict.get k st with
  | None => (Raise NotFound, st)
  | Some existing =>
      match Note.new (Note.id existing)
              match NoteUpdate.title p with
              | None => Note.title existing | Some t => t end
              match NoteUpdate.content p with
              | None => Note.content existing | Some c => c end
              (Note.created_at existing) now with
      | Ok updated => (Ok updated, Dict.set k updated st)
      | Raise e => (Raise e, st)
      end
  end.
Proof.
  unfold_methods; destruct (Dict.get k st); [|reflexivity].
  destruct (Note.new _ _ _ _ _); reflexivity.
Qed.

Lemma delete_note_eq k st :
  Service.delete_note k st =
  if Dict.mem k st then (Ok tt, Dict.del k st) else (Raise NotFound, st).
Proof. unfold_methods; destruct (Dict.mem k st); reflexivity. Qed.

Lemma router_create_note_eq now fresh title content st :
  Router.create_note now fresh title content st =
  match NoteCreate.new title content with
  | Ok payload => Service.create_note now fresh payload st
  | Raise e => (Raise e, st)
  end.
Proof.
  unfold Router.create_note, bind, lift.
  destruct (NoteCreate.new title content); reflexivity.
Qed.

Lemma router_update_note_eq now k title content st :
  Router.update_note now k title content st =
  match NoteUpdate.new title content with
  | Ok payload => Service.update_note now k payload st
  | Raise e => (Raise e, st)
  end.
Proof.
  unfold Router.update_note, bind, lift.
  destruct (NoteUpdate.new title content); reflexivity.
Qed.

(** A valid create request always succeeds, and says what it stores. *)
Lemma router_create_note_valid now fresh title content p st :
  NoteCreate.new title content = Ok p ->
  Router.create_note now fresh title content st =
  let n := Note.mk fresh (NoteCreate.title p) (NoteCreate.content p) now now in
  (Ok n, Dict.set fresh n st).
Proof.
  intro Hp; rewrite router_create_note_eq, Hp, create_note_eq.
  apply NoteCreate_new_Ok in Hp as (Hl & Hne & Hc).
  assert (Note.new fresh (NoteCreate.title p) (NoteCreate.content p) now now
          = Ok (Note.mk fresh (NoteCreate.title p) (NoteCreate.content p)
                        now now)) as ->; [|reflexivity].
  apply Note_new_Ok.
  destruct content as [c|]; [destruct Hc as [Hc ->] | subst p]; simpl.
  - rewrite strip_idem, rstrip_idem.
    pose proof (len_rstrip_le c).
    assert (1 <= len (strip title) <= 200)%Z
      by (apply strip_len_bounds; [lia | exact Hne]).
    repeat split; auto; lia.
  - rewrite strip_idem.
    assert (1 <= len (strip title) <= 200)%Z
      by (apply strip_len_bounds; [lia | exact Hne]).
    repeat split; auto; try lia; unfold len; simpl; lia.
Qed.

End MethodEquations.

(* ================================================================== *)
(** * The store invariant *)
(* ================================================================== *)

Section StoreInvariant.

Import Repository Trace.

Lemma store_ok_init : store_ok Repository.init.
Proof. split; [constructor | intros ? ? []]. Qed.

Lemma store_ok_set st k n :
  store_ok st -> Note.id n = k -> Note_ok n -> store_ok (Dict.set k n st).
Proof.
  intros [Hnd Hall] Hid Hok; split; [now apply NoDup_set|].
  intros k' n' Hin; apply In_set in Hin as [[= -> ->]|Hin]; auto.
Qed.

Lemma store_ok_del st k : store_ok st -> store_ok (Dict.del k st).
Proof.
  intros [Hnd Hall]; split; [now apply NoDup_del|].
  intros k' n' Hin; apply In_del in Hin; auto.
Qed.

Lemma store_ok_get st k n :
  store_ok st -> Dict.get k st = Some n -> Note.id n = k /\ Note_ok n.
Proof. intros [_ Hall] Hg; apply Hall; now apply get_In. Qed.

(** The service keeps the invariant whatever payload object it is handed:
    [Note.new] validates once more. *)
Lemma service_create_keeps now fresh p st :
  store_ok st -> store_ok (snd (Service.create_note now fresh p st)).
Proof.
  intro Hok; rewrite create_note_eq.
  destruct (Note.new _ _ _ _ _) as [n|e] eqn:E; simpl; [|exact Hok].
  apply store_ok_set; [exact Hok | reflexivity | eapply Note_new_ok; eauto].
Qed.

Lemma service_update_keeps now k p st :
  store_ok st -> store_ok (snd (Service.update_note now k p st)).
Proof.
  intro Hok; rewrite update_note_eq.
  destruct (Dict.get k st) as [ex|] eqn:Eg; simpl; [|exact Hok].
  destruct (Note.new _ _ _ _ _) as [n|e] eqn:E; simpl; [|exact Hok].
  destruct (store_ok_get _ _ _ Hok Eg) as [Hid _].
  apply store_ok_set; [exact Hok | | eapply Note_new_ok; eauto].
  apply Note_new_Ok in E as (_ & _ & _ & ->); exact Hid.
Qed.

Lemma service_delete_keeps k st :
  store_ok st -> store_ok (snd (Service.delete_note k st)).
Proof.
  intro Hok; rewrite delete_note_eq.
  destruct (Dict.mem k st); simpl; [now apply store_ok_del | exact Hok].
Qed.

Lemma handle_keeps st r : store_ok st -> store_ok (handle st r).
Proof.
  intro Hok; destruct r as [now fresh t c | now k t c | k]; simpl.
  - rewrite router_create_note_eq.
    destruct (NoteCreate.new t c); [now apply service_create_keeps | exact Hok].
  - rewrite router_update_note_eq.
    destruct (NoteUpdate.new t c); [now apply service_update_keeps | exact Hok].
  - now apply service_delete_keeps.
Qed.

Lemma run_from_keeps rs st : store_ok st -> store_ok (run_from st rs).
Proof.
  revert st; induction rs as [|r rs IH]; intros st Hok; simpl; [exact Hok|].
  apply IH, handle_keeps, Hok.
Qed.

Lemma reachable_store_ok st : reachable st -> store_ok st.
Proof. intros [rs ->]; apply run_from_keeps, store_ok_init. Qed.

End StoreInvariant.

(* ================================================================== *)
(** * Create, get, delete *)
(* ================================================================== *)

Section CreateGetDelete.

Import Repository Trace.

(** C1.  For every valid input pair (title, content), creating a note and
    then getting it by the id of the returned note returns a note with that
    id, whose title is the input title trimmed at both ends, whose content
    is the input content with trailing whitespace stripped, and whose
    [created_at] equals its [updated_at]. *)
Theorem create_then_get (now : datetime) (fresh : UUID) (title : pystr)
        (content : option pystr) (st : store) :
  (exists payload, NoteCreate.new title content = Ok payload) ->
  exists created st' got,
    Router.create_note now fresh title content st = (Ok created, st') /\
    Router.get_note (Note.id created) st' = (Ok got, st') /\
    Note.id got = Note.id created /\
    Note.title got = strip title /\
    Note.content got = rstrip (content_of content) /\
    Note.created_at got = Note.updated_at got.
Proof.
  intros [p Hp].
  pose proof (router_create_note_valid now fresh title content p st Hp) as Hc.
  cbv zeta in Hc.
  apply NoteCreate_new_Ok in Hp as (Hl & Hne & Hcont).
  eexists; eexists; eexists; split; [exact Hc|].
  unfold Router.get_note; rewrite get_note_eq; cbn [Note.id].
  rewrite get_set_same; split; [reflexivity|].
  cbn [Note.id Note.title Note.content Note.created_at Note.updated_at].
  destruct content as [c|]; [destruct Hcont as [_ ->] | subst p]; simpl;
    repeat split; reflexivity.
Qed.

Lemma create_then_get_witness :
  (exists payload,
      NoteCreate.new (of_string " Tea ") (Some (of_string "green  "))
      = Ok payload) /\
  exists created st' got,
    Router.create_note 7%Z 42%N (of_string " Tea ")
                       (Some (of_string "green  ")) Repository.init
    = (Ok created, st') /\
    Router.get_note (Note.id created) st' = (Ok got, st') /\
    Note.id got = Note.id created /\
    Note.title got = strip (of_string " Tea ") /\
    Note.content got = rstrip (content_of (Some (of_string "green  "))) /\
    Note.created_at got = Note.updated_at got.
Proof.
  split.
  - eexists; vm_compute; reflexivity.
  - apply (create_then_get 7%Z 42%N (of_string " Tea ")
                           (Some (of_string "green  ")) Repository.init).
    eexists; vm_compute; reflexivity.
Defined.

(** C3.  For every id that has no live note in the store, get, update and
    delete each fail with [NotFound], and the store after the failed call
    is the store before it. *)
Theorem missing_id_not_found (st : store) (note_id : UUID) :
  Dict.get note_id st = None ->
  Service.get_note note_id st = (Raise NotFound, st) /\
  (forall now payload,
      Service.update_note now note_id payload st = (Raise NotFound, st)) /\
  Service.delete_note note_id st = (Raise NotFound, st) /\
  Router.get_note note_id st = (Raise NotFound, st) /\
  (forall now title content payload,
      NoteUpdate.new title content = Ok payload ->
      Router.update_note now note_id title content st
      = (Raise NotFound, st)) /\
  Router.delete_note note_id st = (Raise NotFound, st).
Proof.
  intro Hg.
  assert (Service.get_note note_id st = (Raise NotFound, st)) as Hget
      by (rewrite get_note_eq, Hg; reflexivity).
  assert (forall now payload,
             Service.update_note now note_id payload st
             = (Raise NotFound, st)) as Hupd
      by (intros; rewrite update_note_eq, Hg; reflexivity).
  assert (Service.delete_note note_id st = (Raise NotFound, st)) as Hdel
      by (rewrite delete_note_eq; unfold Dict.mem; rewrite Hg; reflexivity).
  repeat split; auto.
  intros now title content payload Hp.
  rewrite router_update_note_eq, Hp; apply Hupd.
Qed.

Lemma missing_id_not_found_witness :
  Dict.get 9%N (run [Create 1 3 (of_string "a") None]) = None /\
  Service.delete_note 9%N (run [Create 1 3 (of_string "a") None])
  = (Raise NotFound, run [Create 1 3 (of_string "a") None]).
Proof.
  split; [reflexivity|].
  apply (missing_id_not_found (run [Create 1 3 (of_string "a") None]) 9%N).
  reflexivity.
Defined.

(** C4.  A create request whose title is whitespace-only, such as ["  "],
    fails with [ValidationError], and the failed create adds no note: the
    store is left as it was. *)
Theorem blank_title_rejected (now : datetime) (fresh : UUID) (title : pystr)
        (content : option pystr) (st : store) :
  strip title = [] ->
  Router.create_note now fresh title content st
  = (Raise ValidationError, st).
Proof.
  intro Hs; rewrite router_create_note_eq.
  destruct (NoteCreate.new title content) as [p|e] eqn:E.
  - apply NoteCreate_new_Ok in E as (_ & Hne & _); contradiction.
  - now rewrite (NoteCreate_new_Raise _ _ _ E).
Qed.

Lemma blank_title_rejected_witness :
  strip (of_string "  ") = [] /\
  Router.create_note 7%Z 42%N (of_string "  ") (Some (of_string "body"))
                     (run [Create 1 3 (of_string "a") None])
  = (Raise ValidationError, run [Create 1 3 (of_string "a") None]).
Proof.
  split; [reflexivity|].
  apply (blank_title_rejected 7%Z 42%N (of_string "  ")); reflexivity.
Defined.

(** C7.  For every note in the store, deleting it and then getting the same
    id fails with [NotFound]; a second delete of that id fails with
    [NotFound] too, and with no other error. *)
Theorem delete_then_get_and_delete (st : store) (note_id : UUID)
        (note : Note.t) :
  reachable st ->
  Dict.get note_id st = Some note ->
  exists st',
    Service.delete_note note_id st = (Ok tt, st') /\
    Service.get_note note_id st' = (Raise NotFound, st') /\
    Service.delete_note note_id st' = (Raise NotFound, st').
Proof.
  intros Hr Hg; apply reachable_store_ok in Hr as [Hnd _].
  exists (Dict.del note_id st).
  assert (Dict.get note_id (Dict.del note_id st) = None) as Hgone
      by now apply get_del_same.
  rewrite !delete_note_eq, get_note_eq; unfold Dict.mem.
  rewrite Hg, Hgone; auto.
Qed.

Lemma delete_then_get_and_delete_witness :
  reachable (run [Create 1 3 (of_string "a") None;
                  Create 2 4 (of_string "b") None]) /\
  exists st',
    Service.delete_note 3%N (run [Create 1 3 (of_string "a") None;
                                  Create 2 4 (of_string "b") None])
    = (Ok tt, st') /\
    Service.get_note 3%N st' = (Raise NotFound, st') /\
    Service.delete_note 3%N st' = (Raise NotFound, st').
Proof.
  split; [eexists; reflexivity|].
  eapply (delete_then_get_and_delete _ 3%N);
    [eexists; reflexivity | vm_compute; reflexivity].
Defined.

End CreateGetDelete.

(* ================================================================== *)
(** * Update *)
(* ================================================================== *)

Section Update.

Import Repository Trace.

Lemma Note_new_fixpoint i t c ca ua :
  strip t = t -> t <> [] -> (len t <= 200)%Z ->
  rstrip c = c -> (len c <= 10000)%Z ->
  Note.new i t c ca ua = Ok (Note.mk i t c ca ua).
Proof.
  intros Ht Hne Hl Hc Hlc; apply Note_new_Ok; rewrite Ht, Hc.
  assert (1 <= len (strip t) <= 200)%Z
    by (apply strip_len_bounds; [exact Hl | now rewrite Ht]).
  rewrite Ht in *; auto.
Qed.

(** An update whose payload passed [NoteUpdate.new], on an id that is
    present in a well-formed store, succeeds and replaces the record. *)
Lemma router_update_note_valid now k title content p st existing :
  store_ok st ->
  Dict.get k st = Some existing ->
  NoteUpdate.new title content = Ok p ->
  Router.update_note now k title content st =
  let updated :=
    Note.mk (Note.id existing)
            match title with
            | None => Note.title existing | Some t => strip t end
            match content with
            | None => Note.content existing | Some c => rstrip c end
            (Note.created_at existing) now in
  (Ok updated, Dict.set k updated st).
Proof.
  intros Hok Hg Hp; rewrite router_update_note_eq, Hp, update_note_eq, Hg.
  destruct (store_ok_get _ _ _ Hok Hg) as (_ & Ht & Hne & Hl & Hc & Hlc).
  apply NoteUpdate_new_Ok in Hp as (t' & c' & Et & Ec & ->).
  apply NoteUpdate_title_field_Ok in Et.
  apply NoteUpdate_content_field_Ok in Ec.
  cbn [NoteUpdate.title NoteUpdate.content]; cbv zeta.
  assert (Note.new (Note.id existing)
            match t' with None => Note.title existing | Some t => t end
            match c' with None => Note.content existing | Some c => c end
            (Note.created_at existing) now
          = Ok (Note.mk (Note.id existing)
                  match t' with None => Note.title existing | Some t => t end
                  match c' with None => Note.content existing | Some c => c end
                  (Note.created_at existing) now)) as ->.
  { apply Note_new_fixpoint.
    - destruct title as [t|]; [destruct Et as (_ & _ & ->) | subst t'];
        [apply strip_idem | exact Ht].
    - destruct title as [t|]; [destruct Et as (_ & ? & ->) | subst t']; auto.
    - destruct title as [t|]; [destruct Et as (? & ? & ->) | subst t'];
        [pose proof (len_strip_le t); lia | lia].
    - destruct content as [c|]; [destruct Ec as (_ & ->) | subst c'];
        [apply rstrip_idem | exact Hc].
    - destruct content as [c|]; [destruct Ec as (? & ->) | subst c'];
        [pose proof (len_rstrip_le c); lia | lia]. }
  destruct title as [t|]; [destruct Et as (_ & _ & ->) | subst t'];
    (destruct content as [c|]; [destruct Ec as (_ & ->) | subst c']);
    reflexivity.
Qed.

(** C2, as the code has it.  For every note in the store, an update with
    the title absent and some content changes only that note's content and
    [updated_at]: its id, title and [created_at] stay, every other note
    stays, and [updated_at] becomes the clock reading of the update.  It is
    strictly later than the previous [updated_at] when that reading is
    strictly later than it. *)
Theorem update_content_only (now : datetime) (note_id : UUID)
        (content : pystr) (st : store) (note : Note.t) :
  reachable st ->
  Dict.get note_id st = Some note ->
  (len content <= 10000)%Z ->
  exists updated st',
    Router.update_note now note_id None (Some content) st
    = (Ok updated, st') /\
    Dict.get note_id st' = Some updated /\
    Note.id updated = Note.id note /\
    Note.title updated = Note.title note /\
    Note.created_at updated = Note.created_at note /\
    Note.content updated = rstrip content /\
    Note.updated_at updated = now /\
    (forall k, k <> note_id -> Dict.get k st' = Dict.get k st) /\
    Dict.keys st' = Dict.keys st /\
    ((Note.updated_at note < now)%Z ->
     (Note.updated_at note < Note.updated_at updated)%Z).
Proof.
  intros Hr Hg Hl; apply reachable_store_ok in Hr.
  assert (NoteUpdate.new None (Some content)
          = Ok (NoteUpdate.mk None (Some (rstrip content)))) as Hp.
  { apply NoteUpdate_new_Ok; exists None, (Some (rstrip content)).
    split; [reflexivity|]; split; [|reflexivity].
    apply NoteUpdate_content_field_Ok; auto. }
  pose proof (router_update_note_valid now note_id _ _ _ st note Hr Hg Hp)
    as Hu; cbv zeta in Hu.
  eexists; eexists; split; [exact Hu|].
  cbn [Note.id Note.title Note.content Note.created_at Note.updated_at].
  rewrite get_set_same, keys_set; unfold Dict.mem; rewrite Hg.
  repeat split; auto.
  intros k Hk; now apply get_set_other.
Qed.

Lemma update_content_only_witness :
  reachable (run [Create 5 1 (of_string "a") (Some (of_string "old"))]) /\
  exists updated st',
    Router.update_note 8%Z 1%N None (Some (of_string "new  "))
      (run [Create 5 1 (of_string "a") (Some (of_string "old"))])
    = (Ok updated, st') /\
    Note.content updated = of_string "new" /\
    Note.title updated = of_string "a" /\
    (Note.created_at updated = 5 /\ Note.updated_at updated = 8)%Z.
Proof.
  split; [eexists; reflexivity|].
  destruct (update_content_only 8%Z 1%N (of_string "new  ")
              (run [Create 5 1 (of_string "a") (Some (of_string "old"))])
              (Note.mk 1%N (of_string "a") (of_string "old") 5%Z 5%Z))
    as (u & st' & Hu & _ & _ & Ht & Hc & Hcont & Hua & _).
  - eexists; reflexivity.
  - reflexivity.
  - vm_compute; discriminate.
  - exists u, st'; repeat split; auto.
Defined.

(** C2, as it is written, fails: an update served at the clock reading the
    note already carries leaves [updated_at] where it was. *)
Lemma update_content_same_reading :
  reachable (run [Create 5 1 (of_string "a") None]) /\
  Dict.get 1%N (run [Create 5 1 (of_string "a") None])
  = Some (Note.mk 1%N (of_string "a") [] 5%Z 5%Z) /\
  fst (Router.update_note 5%Z 1%N None (Some (of_string "new"))
         (run [Create 5 1 (of_string "a") None]))
  = Ok (Note.mk 1%N (of_string "a") (of_string "new") 5%Z 5%Z) /\
  ~ (Note.updated_at (Note.mk 1%N (of_string "a") [] 5%Z 5%Z)
     < Note.updated_at (Note.mk 1%N (of_string "a") (of_string "new") 5%Z 5%Z))%Z.
Proof.
  split; [eexists; reflexivity|].
  split; [reflexivity|].
  split; [reflexivity|].
  simpl; lia.
Qed.

(** C10.  For every note in the store, an update with both title and
    content absent succeeds: it returns the note with id, title, content
    and [created_at] unchanged and [updated_at] set to the current clock
    reading, and stores it. *)
Theorem empty_patch_refreshes (now : datetime) (note_id : UUID)
        (st : store) (note : Note.t) :
  reachable st ->
  Dict.get note_id st = Some note ->
  exists updated st',
    Router.update_note now note_id None None st = (Ok updated, st') /\
    Service.update_note now note_id (NoteUpdate.mk None None) st
    = (Ok updated, st') /\
    Dict.get note_id st' = Some updated /\
    Note.id updated = Note.id note /\
    Note.title updated = Note.title note /\
    Note.content updated = Note.content note /\
    Note.created_at updated = Note.created_at note /\
    Note.updated_at updated = now.
Proof.
  intros Hr Hg; apply reachable_store_ok in Hr.
  pose proof (router_update_note_valid now note_id None None
                (NoteUpdate.mk None None) st note Hr Hg eq_refl) as Hu.
  cbv zeta in Hu.
  eexists; eexists; split; [exact Hu|].
  rewrite router_update_note_eq in Hu; cbn in Hu.
  split; [exact Hu|].
  rewrite get_set_same; repeat split; reflexivity.
Qed.

Lemma empty_patch_refreshes_witness :
  reachable (run [Create 5 1 (of_string "a") (Some (of_string "old"))]) /\
  exists updated st',
    Router.update_note 8%Z 1%N None None
      (run [Create 5 1 (of_string "a") (Some (of_string "old"))])
    = (Ok updated, st') /\
    Note.updated_at updated = 8%Z.
Proof.
  split; [eexists; reflexivity|].
  destruct (empty_patch_refreshes 8%Z 1%N
              (run [Create 5 1 (of_string "a") (Some (of_string "old"))])
              (Note.mk 1%N (of_string "a") (of_string "old") 5%Z 5%Z))
    as (u & st' & Hu & _ & _ & _ & _ & _ & _ & Hua).
  - eexists; reflexivity.
  - reflexivity.
  - exists u, st'; split; auto.
Defined.

End Update.

(* ================================================================== *)
(** * Which titles are accepted *)
(* ================================================================== *)

Section TitleRule.

(** C5, as the code has it.  A title is accepted by create and by update
    exactly when its length as received is between 1 and 200 and its
    trimmed form is non-empty (given a content that is itself accepted);
    the title then kept is the trimmed one, of 1 to 200 characters.  A
    title longer than 200 as received is rejected, whatever its trimmed
    length. *)
Theorem title_accepted_iff (title : pystr) (content : option pystr) :
  ((exists p, NoteCreate.new title content = Ok p) <->
   (1 <= len title <= 200)%Z /\ strip title <> [] /\ content_len_ok content)
  /\
  ((exists p, NoteUpdate.new (Some title) content = Ok p) <->
   (1 <= len title <= 200)%Z /\ strip title <> [] /\ content_len_ok content)
  /\
  (forall p, NoteCreate.new title content = Ok p ->
             NoteCreate.title p = strip title /\
             (1 <= len (NoteCreate.title p) <= 200)%Z)
  /\
  (forall p, NoteUpdate.new (Some title) content = Ok p ->
             NoteUpdate.title p = Some (strip title) /\
             (1 <= len (strip title) <= 200)%Z)
  /\
  ((200 < len title)%Z ->
   NoteCreate.new title content = Raise ValidationError /\
   NoteUpdate.new (Some title) content = Raise ValidationError).
Proof.
  assert (forall p, NoteCreate.new title content = Ok p ->
                    (1 <= len title <= 200)%Z /\ strip title <> [] /\
                    content_len_ok content /\
                    NoteCreate.title p = strip title) as Hc.
  { intros p Hp; apply NoteCreate_new_Ok in Hp as (Hl & Hne & Hcont).
    destruct content as [c|]; [destruct Hcont as [? ->] | subst p];
      simpl; auto. }
  assert (forall p, NoteUpdate.new (Some title) content = Ok p ->
                    (1 <= len title <= 200)%Z /\ strip title <> [] /\
                    content_len_ok content /\
                    NoteUpdate.title p = Some (strip title)) as Hu.
  { intros p Hp; apply NoteUpdate_new_Ok in Hp as (t' & c' & Et & Ec & ->).
    apply NoteUpdate_title_field_Ok in Et as (Hl & Hne & ->).
    apply NoteUpdate_content_field_Ok in Ec.
    destruct content as [c|]; [destruct Ec as [? ->] | subst c'];
      simpl; auto. }
  split; [|split; [|split; [|split]]].
  - split.
    + intros [p Hp]; destruct (Hc p Hp) as (? & ? & ? & _); auto.
    + intros (Hl & Hne & Hcont).
      destruct content as [c|]; eexists; apply NoteCreate_new_Ok;
        repeat split; simpl in *; auto; lia.
  - split.
    + intros [p Hp]; destruct (Hu p Hp) as (? & ? & ? & _); auto.
    + intros (Hl & Hne & Hcont).
      exists (NoteUpdate.mk (Some (strip title)) (option_map rstrip content)).
      apply NoteUpdate_new_Ok; eexists; eexists.
      split; [apply NoteUpdate_title_field_Ok; eauto|].
      split; [apply NoteUpdate_content_field_Ok|reflexivity].
      destruct content; simpl in *; auto.
  - intros p Hp; destruct (Hc p Hp) as (Hl & Hne & _ & ->).
    split; [reflexivity | apply strip_len_bounds; [lia | exact Hne]].
  - intros p Hp; destruct (Hu p Hp) as (Hl & Hne & _ & ->).
    split; [reflexivity | apply strip_len_bounds; [lia | exact Hne]].
  - intro Hlong; split.
    + destruct (NoteCreate.new title content) as [p|e] eqn:E.
      * destruct (Hc p eq_refl) as (? & _); lia.
      * now rewrite (NoteCreate_new_Raise _ _ _ E).
    + destruct (NoteUpdate.new (Some title) content) as [p|e] eqn:E.
      * destruct (Hu p eq_refl) as (? & _); lia.
      * now rewrite (NoteUpdate_new_Raise _ _ _ E).
Qed.

(** C5, as it is written, fails: ["a"] followed by 200 spaces is 201
    characters long and one character long once trimmed, and both create
    and update reject it. *)
Lemma padded_title_rejected :
  (200 < len padded_title)%Z /\
  (1 <= len (strip padded_title) <= 200)%Z /\
  NoteCreate.new padded_title None = Raise ValidationError /\
  NoteUpdate.new (Some padded_title) None = Raise ValidationError /\
  Router.create_note 7%Z 42%N padded_title None Repository.init
  = (Raise ValidationError, Repository.init).
Proof.
  split; [vm_compute; reflexivity|].
  split; [vm_compute; split; discriminate|].
  repeat split; vm_compute; reflexivity.
Qed.

End TitleRule.

(* ================================================================== *)
(** * Invariants of the stored notes *)
(* ================================================================== *)

Section StoredNotes.

Import Repository Trace.

Lemma In_values_set k v d n :
  In n (Dict.values (Dict.set k v d)) -> n = v \/ In n (Dict.values d).
Proof.
  rewrite !In_values_iff; intros (k' & H).
  apply In_set in H as [[= _ ->]|H]; [now left | right; now exists k'].
Qed.

Lemma In_values_del k d n :
  In n (Dict.values (Dict.del k d)) -> In n (Dict.values d).
Proof.
  rewrite !In_values_iff; intros (k' & H); exists k'; eapply In_del; eauto.
Qed.

Lemma get_In_values k d n : Dict.get k d = Some n -> In n (Dict.values d).
Proof. intro H; apply In_values_iff; exists k; now apply get_In. Qed.

(** What one request does to the store, case by case. *)
Lemma handle_cases st r :
  handle st r = st \/
  (exists k n, handle st r = Dict.set k n st /\
     match r with
     | Create now fresh _ _ =>
         k = fresh /\ exists t c, Note.new fresh t c now now = Ok n
     | Update now note_id _ _ =>
         k = note_id /\
         exists ex t c, Dict.get k st = Some ex /\
           Note.new (Note.id ex) t c (Note.created_at ex) now = Ok n
     | Delete _ => False
     end) \/
  (exists k, r = Delete k /\ handle st r = Dict.del k st).
Proof.
  destruct r as [now fresh t c | now k t c | k]; simpl.
  - rewrite router_create_note_eq.
    destruct (NoteCreate.new t c) as [p|e]; [|now left].
    rewrite create_note_eq.
    destruct (Note.new _ _ _ _ _) as [n|e] eqn:E; [|now left].
    right; left; exists (Note.id n), n; split; [reflexivity|].
    split; [|eauto].
    apply Note_new_Ok in E as (_ & _ & _ & ->); reflexivity.
  - rewrite router_update_note_eq.
    destruct (NoteUpdate.new t c) as [p|e]; [|now left].
    rewrite update_note_eq.
    destruct (Dict.get k st) as [ex|] eqn:Eg; [|now left].
    destruct (Note.new _ _ _ _ _) as [n|e] eqn:E; [|now left].
    right; left; exists k, n; split; [reflexivity | eauto 7].
  - rewrite delete_note_eq; destruct (Dict.mem k st); [|now left].
    right; right; now exists k.
Qed.

Lemma Note_new_title_ok i t c ca ua n :
  Note.new i t c ca ua = Ok n ->
  Note.title n <> [] /\ strip (Note.title n) <> [].
Proof.
  intro H; apply Note_new_ok in H as (Hs & Hne & _); now rewrite Hs.
Qed.

Lemma titles_ok_set st k n :
  titles_ok st -> Note.title n <> [] /\ strip (Note.title n) <> [] ->
  titles_ok (Dict.set k n st).
Proof.
  intros Hst Hn m Hin; apply In_values_set in Hin as [->|Hin]; auto.
Qed.

(** C9.  Every store state reachable through create, update and delete
    requests holds only notes whose title is non-empty and not blank; each
    of the three service methods keeps it so, from any store and for any
    payload object, and so does every request. *)
Theorem titles_never_blank :
  (forall st, reachable st -> titles_ok st) /\
  (forall st now fresh payload,
      titles_ok st ->
      titles_ok (snd (Service.create_note now fresh payload st))) /\
  (forall st now note_id payload,
      titles_ok st ->
      titles_ok (snd (Service.update_note now note_id payload st))) /\
  (forall st note_id,
      titles_ok st -> titles_ok (snd (Service.delete_note note_id st))) /\
  (forall st r, titles_ok st -> titles_ok (handle st r)).
Proof.
  assert (forall st r, titles_ok st -> titles_ok (handle st r)) as Hstep.
  { intros st r Hst.
    destruct (handle_cases st r) as [-> | [(k & n & -> & Hn) | (k & _ & ->)]].
    - exact Hst.
    - apply titles_ok_set; [exact Hst|].
      destruct r as [now fresh ? ? | now ? ? ? | ?].
      + destruct Hn as (_ & t & c & E); eapply Note_new_title_ok; eauto.
      + destruct Hn as (_ & ex & t & c & _ & E);
          eapply Note_new_title_ok; eauto.
      + contradiction.
    - intros m Hin; apply In_values_del in Hin; auto. }
  split; [|split; [|split; [|split]]]; [| | | |exact Hstep].
  - intros st [rs ->]; unfold run.
    assert (titles_ok Repository.init) as H0 by (intros ? []).
    revert H0; generalize Repository.init.
    induction rs as [|r rs IH]; intros st0 H0; simpl; [exact H0|].
    apply IH, Hstep, H0.
  - intros st now fresh p Hst; rewrite create_note_eq.
    destruct (Note.new _ _ _ _ _) as [n|e] eqn:E; simpl; [|exact Hst].
    apply titles_ok_set; [exact Hst | eapply Note_new_title_ok; eauto].
  - intros st now k p Hst; rewrite update_note_eq.
    destruct (Dict.get k st) as [ex|]; simpl; [|exact Hst].
    destruct (Note.new _ _ _ _ _) as [n|e] eqn:E; simpl; [|exact Hst].
    apply titles_ok_set; [exact Hst | eapply Note_new_title_ok; eauto].
  - intros st k Hst; rewrite delete_note_eq.
    destruct (Dict.mem k st); simpl; [|exact Hst].
    intros m Hin; apply In_values_del in Hin; auto.
Qed.

Lemma titles_never_blank_witness :
  reachable (run [Create 1 3 (of_string " a ") None;
                  Update 2 3 (Some (of_string "b  ")) None]) /\
  titles_ok (run [Create 1 3 (of_string " a ") None;
                  Update 2 3 (Some (of_string "b  ")) None]) /\
  Dict.values (run [Create 1 3 (of_string " a ") None;
                    Update 2 3 (Some (of_string "b  ")) None])
  = [Note.mk 3%N (of_string "b") [] 1%Z 2%Z].
Proof.
  split; [eexists; reflexivity|].
  split; [|reflexivity].
  apply (proj1 titles_never_blank); eexists; reflexivity.
Defined.

End StoredNotes.

(* ================================================================== *)
(** * Timestamps *)
(* ================================================================== *)

Section Timestamps.

Import Repository Trace.

Lemma nondecreasing_cons a l :
  nondecreasing (a :: l) = true ->
  match l with
  | [] => True
  | b :: _ => (a <= b)%Z /\ nondecreasing l = true
  end.
Proof.
  destruct l as [|b l]; simpl; [trivial|].
  rewrite andb_true_iff, Z.leb_le; tauto.
Qed.

Lemma stamps_ok_set st k n :
  stamps_ok st -> (Note.created_at n <= Note.updated_at n)%Z ->
  stamps_ok (Dict.set k n st).
Proof.
  intros Hst Hn m Hin; apply In_values_set in Hin as [->|Hin]; auto.
Qed.

Lemma stamped_by_step lo now st r :
  stamped_by lo st -> (lo <= now)%Z ->
  clock r = [now] -> stamped_by now (handle st r).
Proof.
  intros Hst Hle Hclock.
  assert (stamped_by now st) as Hst'
      by (intros n Hin; destruct (Hst n Hin); split; lia).
  destruct (handle_cases st r) as [-> | [(k & n & -> & Hn) | (k & -> & _)]];
    [exact Hst' | | discriminate].
  intros m Hin; apply In_values_set in Hin as [->|Hin]; [|auto].
  destruct r as [now' fresh ? ? | now' ? ? ? | ?]; simpl in Hclock;
    [| |contradiction]; injection Hclock as ->.
  - destruct Hn as (_ & t & c & E).
    apply Note_new_Ok in E as (_ & _ & _ & ->); simpl; lia.
  - destruct Hn as (_ & ex & t & c & Eg & E).
    apply Note_new_Ok in E as (_ & _ & _ & ->); simpl.
    destruct (Hst ex (get_In_values _ _ _ Eg)); lia.
Qed.

Lemma stamped_by_delete lo st k :
  stamped_by lo st -> stamped_by lo (handle st (Delete k)).
Proof.
  intros Hst; simpl; unfold Router.delete_note; rewrite delete_note_eq.
  destruct (Dict.mem k st); simpl; [|exact Hst].
  intros m Hin; apply In_values_del in Hin; auto.
Qed.

Lemma stamped_by_run rs : forall lo st,
  stamped_by lo st ->
  nondecreasing (lo :: readings rs) = true ->
  stamps_ok (run_from st rs).
Proof.
  induction rs as [|r rs IH]; intros lo st Hst Hmono; simpl.
  - intros n Hin; now destruct (Hst n Hin).
  - destruct r as [now fresh t c | now k t c | k].
    + apply nondecreasing_cons in Hmono as [Hle Hmono].
      apply (IH now); [|exact Hmono].
      eapply stamped_by_step; eauto.
    + apply nondecreasing_cons in Hmono as [Hle Hmono].
      apply (IH now); [|exact Hmono].
      eapply stamped_by_step; eauto.
    + apply (IH lo); [|exact Hmono].
      now apply stamped_by_delete.
Qed.

(** C8, as the code has it.  In every store state reached by create,
    update and delete requests along which the clock readings never
    decrease, every stored note has [created_at <= updated_at].  Create and
    delete keep this from any store; update keeps it when its clock reading
    is not earlier than the [created_at] of the note it updates. *)
Theorem stamps_ordered :
  (forall rs, nondecreasing (readings rs) = true -> stamps_ok (run rs)) /\
  (forall st now fresh title content,
      stamps_ok st -> stamps_ok (handle st (Create now fresh title content)))
  /\
  (forall st note_id, stamps_ok st -> stamps_ok (handle st (Delete note_id)))
  /\
  (forall st now note_id title content,
      stamps_ok st ->
      (forall n, Dict.get note_id st = Some n -> (Note.created_at n <= now)%Z) ->
      stamps_ok (handle st (Update now note_id title content))).
Proof.
  split; [|split; [|split]].
  - intros rs Hmono; unfold run.
    destruct (readings rs) as [|a l] eqn:E.
    + apply (stamped_by_run rs 0%Z); [intros ? [] | now rewrite E].
    + apply (stamped_by_run rs a); [intros ? []|].
      rewrite E; change (((a <=? a)%Z && nondecreasing (a :: l)) = true).
      now rewrite Z.leb_refl.
  - intros st now fresh t c Hst.
    destruct (handle_cases st (Create now fresh t c))
      as [-> | [(k & n & -> & _ & (t' & c' & E)) | (k & E & _)]];
      [exact Hst | | discriminate].
    apply stamps_ok_set; [exact Hst|].
    apply Note_new_Ok in E as (_ & _ & _ & ->); simpl; lia.
  - intros st k Hst; simpl; unfold Router.delete_note.
    rewrite delete_note_eq; destruct (Dict.mem k st); simpl; [|exact Hst].
    intros m Hin; apply In_values_del in Hin; auto.
  - intros st now k0 t c Hst Hnow.
    destruct (handle_cases st (Update now k0 t c))
      as [-> | [(k & n & -> & -> & (ex & t' & c' & Eg & E)) | (k & E & _)]];
      [exact Hst | | discriminate].
    apply stamps_ok_set; [exact Hst|].
    apply Note_new_Ok in E as (_ & _ & _ & ->); simpl.
    now apply Hnow.
Qed.

Lemma stamps_ordered_witness :
  nondecreasing (readings [Create 10 1 (of_string "a") None;
                           Update 12 1 None (Some (of_string "b"))]) = true
  /\
  stamps_ok (run [Create 10 1 (of_string "a") None;
                  Update 12 1 None (Some (of_string "b"))]) /\
  Dict.values (run [Create 10 1 (of_string "a") None;
                    Update 12 1 None (Some (of_string "b"))])
  = [Note.mk 1%N (of_string "a") (of_string "b") 10%Z 12%Z].
Proof.
  split; [reflexivity|].
  split; [|reflexivity].
  apply (proj1 stamps_ordered); reflexivity.
Defined.

(** C8, as it is written, fails: when the clock reads 10 at the create and
    5 at the update, the stored note has [created_at = 10] and
    [updated_at = 5]. *)
Lemma stamps_disordered_by_clock :
  reachable (run [Create 10 1 (of_string "a") None; Update 5 1 None None]) /\
  Dict.values (run [Create 10 1 (of_string "a") None; Update 5 1 None None])
  = [Note.mk 1%N (of_string "a") [] 10%Z 5%Z] /\
  ~ (Note.created_at (Note.mk 1%N (of_string "a") [] 10%Z 5%Z)
     <= Note.updated_at (Note.mk 1%N (of_string "a") [] 10%Z 5%Z))%Z /\
  ~ stamps_ok (run [Create 10 1 (of_string "a") None; Update 5 1 None None]).
Proof.
  split; [eexists; reflexivity|].
  split; [reflexivity|].
  split; [simpl; lia|].
  intro H.
  assert (In (Note.mk 1%N (of_string "a") [] 10%Z 5%Z)
             (Dict.values (run [Create 10 1 (of_string "a") None;
                                Update 5 1 None None]))) as Hin
      by (left; reflexivity).
  apply H in Hin; simpl in Hin; lia.
Qed.

End Timestamps.

(* ================================================================== *)
(** * Listing and filtering *)
(* ================================================================== *)

Section Listing.

Import Repository Trace.

Variable lower : pystr -> pystr.
Hypothesis lower_empty : lower [] = [].

Lemma filter_all {A} (f : A -> bool) (l : list A) :
  (forall x, In x l -> f x = true) -> filter f l = l.
Proof.
  induction l as [|a l IH]; simpl; intro H; [reflexivity|].
  rewrite (H a) by now left.
  f_equal; apply IH; intros; apply H; now right.
Qed.

Lemma list_notes_truthy st q :
  q <> [] ->
  Router.list_notes lower (Some q) st
  = (Ok (filter (fun n => contains (lower (strip q)) (lower (Note.title n)))
                (Dict.values st)), st).
Proof. destruct q; [congruence | reflexivity]. Qed.

Lemma list_notes_blank st q :
  strip q = [] ->
  Router.list_notes lower (Some q) st = (Ok (Dict.values st), st).
Proof.
  intro Hs; destruct q as [|c q]; [reflexivity|].
  rewrite list_notes_truthy by discriminate.
  rewrite Hs, lower_empty, filter_all; [reflexivity|].
  intros; apply contains_empty.
Qed.

(** The two router modules answer alike. *)
Lemma list_notes_alt_agrees st q :
  Router.list_notes_alt lower q st = Router.list_notes lower q st.
Proof.
  destruct q as [[|c q]|]; try reflexivity.
  unfold Router.list_notes_alt, Router.list_notes, bind, ret; simpl.
  destruct (lower (strip (c :: q))) as [|a r] eqn:E; [|reflexivity].
  rewrite filter_all; [reflexivity | intros; apply contains_empty].
Qed.

End Listing.

Section ListingExample.

Import Repository Trace.

Lemma NoteCreate_new_trimmed title content :
  strip title = title -> title <> [] -> (len title <= 200)%Z ->
  content_len_ok content ->
  NoteCreate.new title content
  = Ok (NoteCreate.mk title (rstrip (content_of content))).
Proof.
  intros Hs Hne Hl Hc; apply NoteCreate_new_Ok; rewrite Hs.
  assert (1 <= len (strip title) <= 200)%Z as Hb
      by (apply strip_len_bounds; [exact Hl | now rewrite Hs]).
  rewrite Hs in Hb.
  destruct content as [c|]; simpl in *; auto.
Qed.

Lemma run_three_creates now1 now2 now3 id1 id2 id3 t1 t2 t3 c1 c2 c3 :
  id1 <> id2 -> id1 <> id3 -> id2 <> id3 ->
  NoteCreate.new t1 c1 = Ok (NoteCreate.mk t1 (rstrip (content_of c1))) ->
  NoteCreate.new t2 c2 = Ok (NoteCreate.mk t2 (rstrip (content_of c2))) ->
  NoteCreate.new t3 c3 = Ok (NoteCreate.mk t3 (rstrip (content_of c3))) ->
  run [Create now1 id1 t1 c1; Create now2 id2 t2 c2; Create now3 id3 t3 c3]
  = [(id1, Note.mk id1 t1 (rstrip (content_of c1)) now1 now1);
     (id2, Note.mk id2 t2 (rstrip (content_of c2)) now2 now2);
     (id3, Note.mk id3 t3 (rstrip (content_of c3)) now3 now3)].
Proof.
  intros H12 H13 H23 E1 E2 E3.
  unfold run, run_from; cbn [fold_left handle].
  rewrite (router_create_note_valid _ _ _ _ _ _ E1); cbn [snd].
  rewrite (router_create_note_valid _ _ _ _ _ _ E2); cbn [snd].
  rewrite (router_create_note_valid _ _ _ _ _ _ E3); cbn [snd].
  cbn [NoteCreate.title NoteCreate.content Repository.init Dict.set].
  apply N.eqb_neq in H12, H13, H23.
  rewrite (N.eqb_sym id2 id1), H12; cbn [Dict.set].
  rewrite (N.eqb_sym id3 id1), H13, (N.eqb_sym id3 id2), H23.
  reflexivity.
Qed.

End ListingExample.

(** C6.  For every store and every filter string: when the filter, trimmed
    and lower-cased, is non-empty, listing returns exactly the stored notes
    whose lower-cased title contains it as a substring, each as it is stored
    and in the order of the store; when the filter is empty or blank, or
    there is none, listing returns all notes.  After creating notes titled
    "Notebook", "Grocery list" and "NOTES", the filter "not" returns exactly
    the notes titled "Notebook" and "NOTES". *)
Theorem list_notes_filter (lower : pystr -> pystr) :
  lower [] = [] ->
  (forall st q,
      lower (strip q) <> [] ->
      Router.list_notes lower (Some q) st
      = (Ok (filter (fun n => contains (lower (strip q))
                                       (lower (Note.title n)))
                    (Dict.values st)), st) /\
      forall n,
        In n (filter (fun n => contains (lower (strip q))
                                        (lower (Note.title n)))
                     (Dict.values st)) <->
        In n (Dict.values st) /\
        substring (lower (strip q)) (lower (Note.title n))) /\
  (forall st q,
      strip q = [] ->
      Router.list_notes lower (Some q) st = (Ok (Dict.values st), st)) /\
  (forall st, Router.list_notes lower None st = (Ok (Dict.values st), st)) /\
  ((forall s, is_ascii s = true -> lower s = lower_ascii s) ->
   forall now1 now2 now3 id1 id2 id3 c1 c2 c3,
     id1 <> id2 -> id1 <> id3 -> id2 <> id3 ->
     content_len_ok c1 -> content_len_ok c2 -> content_len_ok c3 ->
     let st := Trace.run [Trace.Create now1 id1 (of_string "Notebook") c1;
                          Trace.Create now2 id2 (of_string "Grocery list") c2;
                          Trace.Create now3 id3 (of_string "NOTES") c3] in
     Router.list_notes lower (Some (of_string "not")) st
     = (Ok [Note.mk id1 (of_string "Notebook") (rstrip (content_of c1))
                    now1 now1;
            Note.mk id3 (of_string "NOTES") (rstrip (content_of c3))
                    now3 now3], st)).
Proof.
  intro lower_empty; split; [|split; [|split]].
  - intros st q Hq; split.
    + apply list_notes_truthy; intros ->.
      apply Hq; exact lower_empty.
    + intro n; rewrite filter_In, contains_iff; reflexivity.
  - intros st q; now apply list_notes_blank.
  - reflexivity.
  - intros Hascii now1 now2 now3 id1 id2 id3 c1 c2 c3 H12 H13 H23 Hc1 Hc2 Hc3.
    cbv zeta.
    rewrite (run_three_creates now1 now2 now3 _ _ _ _ _ _ _ _ _ H12 H13 H23)
      by (apply NoteCreate_new_trimmed; auto; vm_compute; discriminate).
    rewrite list_notes_truthy by discriminate.
    cbn [Dict.values map snd filter Note.title].
    rewrite !Hascii by reflexivity.
    reflexivity.
Qed.

Lemma list_notes_filter_witness :
  lower_ascii [] = [] /\
  Router.list_notes lower_ascii (Some (of_string " NoT "))
    (Trace.run [Trace.Create 1 11 (of_string "Notebook") None;
                Trace.Create 2 12 (of_string "Grocery list") None;
                Trace.Create 3 13 (of_string "NOTES") None;
                Trace.Create 4 14 (of_string "do not disturb") None])
  = (Ok [Note.mk 11%N (of_string "Notebook") [] 1%Z 1%Z;
         Note.mk 13%N (of_string "NOTES") [] 3%Z 3%Z;
         Note.mk 14%N (of_string "do not disturb") [] 4%Z 4%Z],
     Trace.run [Trace.Create 1 11 (of_string "Notebook") None;
                Trace.Create 2 12 (of_string "Grocery list") None;
                Trace.Create 3 13 (of_string "NOTES") None;
                Trace.Create 4 14 (of_string "do not disturb") None]).
Proof.
  split; [reflexivity|].
  destruct (list_notes_filter lower_ascii eq_refl) as (Hf & _).
  destruct (Hf (Trace.run [Trace.Create 1 11 (of_string "Notebook") None;
                           Trace.Create 2 12 (of_string "Grocery list") None;
                           Trace.Create 3 13 (of_string "NOTES") None;
                           Trace.Create 4 14 (of_string "do not disturb") None])
               (of_string " NoT ")) as (He & _).
  - vm_compute; discriminate.
  - rewrite He; reflexivity.
Defined.

(* ================================================================== *)
(** * More facts about the string built-ins *)
(* ================================================================== *)

Section PyStrExtFacts.

Import PyStrExt.

Lemma all_space_app (a b : pystr) :
  all_space (a ++ b) = all_space a && all_space b.
Proof. apply forallb_app. Qed.

Lemma all_space_rev (s : pystr) : all_space (rev s) = all_space s.
Proof.
  induction s as [|c r IH]; simpl; [reflexivity|].
  rewrite all_space_app, IH; simpl.
  rewrite andb_true_r; apply andb_comm.
Qed.

Lemma lstrip_nil_iff (s : pystr) : lstrip s = [] <-> all_space s = true.
Proof.
  induction s as [|c r IH]; simpl; [tauto|].
  destruct (isspace c); simpl; [exact IH | split; discriminate].
Qed.

Lemma lstrip_split (s : pystr) :
  exists ws, s = ws ++ lstrip s /\ all_space ws = true.
Proof.
  induction s as [|c r (ws & E & Hws)]; simpl; [now exists []|].
  destruct (isspace c) eqn:Ec.
  - exists (c :: ws); simpl; rewrite Ec, Hws; split; [now f_equal | reflexivity].
  - now exists [].
Qed.

Lemma rstrip_split (s : pystr) :
  exists ws, s = rstrip s ++ ws /\ all_space ws = true.
Proof.
  destruct (lstrip_split (rev s)) as (ws & E & Hws).
  exists (rev ws); split; [|now rewrite all_space_rev].
  unfold rstrip; rewrite <- rev_app_distr, <- E; symmetry; apply rev_involutive.
Qed.

Lemma strip_split (s : pystr) :
  exists ws1 ws2,
    s = ws1 ++ strip s ++ ws2 /\ all_space ws1 = true /\ all_space ws2 = true.
Proof.
  destruct (lstrip_split s) as (ws1 & E1 & H1).
  destruct (rstrip_split (lstrip s)) as (ws2 & E2 & H2).
  exists ws1, ws2; unfold strip; rewrite <- E2; auto.
Qed.

Lemma strip_nil_iff (s : pystr) : strip s = [] <-> all_space s = true.
Proof.
  unfold strip; split.
  - intro H; destruct (lstrip_head s) as [E | (c & r & E & Hc)].
    + now apply lstrip_nil_iff.
    + rewrite E, (rstrip_cons_nonspace _ _ Hc) in H; discriminate.
  - intro H; apply lstrip_nil_iff in H; now rewrite H.
Qed.

Lemma strip_head_nonspace (s : pystr) (c : N) (r : pystr) :
  strip s = c :: r -> isspace c = false.
Proof.
  intro H; pose proof (lstrip_strip s) as Hl; rewrite H in Hl.
  simpl in Hl; destruct (isspace c) eqn:E; [|reflexivity].
  exfalso; pose proof (lstrip_length r) as Hlen; rewrite Hl in Hlen.
  simpl in Hlen; lia.
Qed.

Lemma rstrip_last_nonspace (s : pystr) (d : N) :
  rstrip s <> [] -> isspace (last (rstrip s) d) = false.
Proof.
  unfold rstrip; intro H.
  destruct (lstrip_head (rev s)) as [E | (c & r & E & Hc)].
  - rewrite E in H; now elim H.
  - rewrite E; simpl; now rewrite last_last.
Qed.

Lemma strip_last_nonspace (s : pystr) (d : N) :
  strip s <> [] -> isspace (last (strip s) d) = false.
Proof. unfold strip; apply rstrip_last_nonspace. Qed.

Lemma lstrip_app_space (ws s : pystr) :
  all_space ws = true -> lstrip (ws ++ s) = lstrip s.
Proof.
  induction ws as [|c r IH]; simpl; [reflexivity|].
  rewrite andb_true_iff; intros [-> H]; auto.
Qed.

Lemma rstrip_app_space (s ws : pystr) :
  all_space ws = true -> rstrip (s ++ ws) = rstrip s.
Proof.
  intro H; unfold rstrip; rewrite rev_app_distr, lstrip_app_space;
    [reflexivity | now rewrite all_space_rev].
Qed.

Lemma lstrip_app_nonblank (s t : pystr) :
  lstrip s <> [] -> lstrip (s ++ t) = lstrip s ++ t.
Proof.
  induction s as [|c r IH]; simpl; [congruence|].
  destruct (isspace c); [exact IH | reflexivity].
Qed.

(** Whitespace around a string does not change what [strip] gives. *)
Lemma strip_padding (ws1 s ws2 : pystr) :
  all_space ws1 = true -> all_space ws2 = true ->
  strip (ws1 ++ s ++ ws2) = strip s.
Proof.
  intros H1 H2; unfold strip; rewrite (lstrip_app_space _ _ H1).
  destruct (lstrip s) as [|c r] eqn:E.
  - assert (lstrip (s ++ ws2) = []) as ->; [|reflexivity].
    apply lstrip_nil_iff; rewrite all_space_app, H2.
    apply lstrip_nil_iff in E; now rewrite E.
  - rewrite lstrip_app_nonblank, E by (rewrite E; discriminate).
    now apply rstrip_app_space.
Qed.

Lemma lstrip_map (f : N -> N) (s : pystr) :
  (forall c, isspace (f c) = isspace c) ->
  lstrip (map f s) = map f (lstrip s).
Proof.
  intro Hf; induction s as [|c r IH]; simpl; [reflexivity|].
  rewrite Hf; destruct (isspace c); [exact IH | reflexivity].
Qed.

Lemma strip_map (f : N -> N) (s : pystr) :
  (forall c, isspace (f c) = isspace c) ->
  strip (map f s) = map f (strip s).
Proof.
  intro Hf; unfold strip, rstrip.
  rewrite (lstrip_map _ _ Hf), <- map_rev, (lstrip_map _ _ Hf), map_rev.
  reflexivity.
Qed.

Lemma eqb_eq (a b : pystr) : eqb a b = true <-> a = b.
Proof.
  revert b; induction a as [|x a IH]; intros [|y b]; simpl;
    try (split; [discriminate | congruence]); [tauto|].
  rewrite andb_true_iff, N.eqb_eq, IH; split.
  - intros [-> ->]; reflexivity.
  - intros [= -> ->]; auto.
Qed.

End PyStrExtFacts.

(* ================================================================== *)
(** * What normalisation does to a title and a content *)
(* ================================================================== *)

Section Normalisation.

Import PyStrExt.

(** X1.  Both title validators raise exactly on the titles made of
    whitespace only (the empty title among them); so a title of 1 to 200
    characters is accepted, by create and by update, exactly when one of its
    characters is not whitespace. *)
Theorem title_blank_iff_all_space (v : pystr) :
  (NoteBase.title_trim_and_validate v = Raise ValidationError <->
   all_space v = true) /\
  (NoteUpdate.title_optional_trim_and_validate (Some v)
   = Raise ValidationError <-> all_space v = true) /\
  ((exists t, NoteBase.title_field v = Ok t) <->
   (1 <= len v <= 200)%Z /\ all_space v = false) /\
  ((exists t, NoteUpdate.title_field (Some v) = Ok t) <->
   (1 <= len v <= 200)%Z /\ all_space v = false).
Proof.
  assert (strip v <> [] <-> all_space v = false) as Hne.
  { rewrite strip_nil_iff; destruct (all_space v); split; congruence. }
  split; [|split; [|split]].
  - rewrite <- strip_nil_iff; unfold NoteBase.title_trim_and_validate.
    cbv zeta; destruct (strip v); simpl; split; congruence.
  - rewrite <- strip_nil_iff; simpl; destruct (strip v); simpl;
      split; congruence.
  - rewrite <- Hne; split.
    + intros [t H]; apply title_field_Ok in H; tauto.
    + intros [Hl H]; exists (strip v); apply title_field_Ok; auto.
  - rewrite <- Hne; split.
    + intros [t H]; apply NoteUpdate_title_field_Ok in H; tauto.
    + intros [Hl H]; exists (Some (strip v)).
      apply NoteUpdate_title_field_Ok; auto.
Qed.

(** X2.  What a create request stores differs from what it carries only by
    whitespace at the ends: the stored title is the received one without a
    run of whitespace before it and one after it, and neither starts nor
    ends with whitespace; the stored content is the received one without a
    run of whitespace after it, whitespace at its start is kept, and it does
    not end with whitespace. *)
Theorem create_trims_only_whitespace (title : pystr) (content : option pystr)
        (p : NoteCreate.t) :
  NoteCreate.new title content = Ok p ->
  (exists ws1 ws2,
      title = ws1 ++ NoteCreate.title p ++ ws2 /\
      all_space ws1 = true /\ all_space ws2 = true) /\
  (exists c r,
      NoteCreate.title p = c :: r /\ isspace c = false /\
      isspace (last (NoteCreate.title p) c) = false) /\
  (exists ws,
      content_of content = NoteCreate.content p ++ ws /\
      all_space ws = true) /\
  (NoteCreate.content p = [] \/
   isspace (last (NoteCreate.content p) 0%N) = false).
Proof.
  intro Hp; apply NoteCreate_new_Ok in Hp as (Hl & Hne & Hc).
  assert (NoteCreate.title p = strip title /\
          NoteCreate.content p = rstrip (content_of content)) as [Et Ec]
      by (destruct content as [c|]; [destruct Hc as [_ ->] | subst p];
          split; reflexivity).
  rewrite Et, Ec; split; [apply strip_split|]; split; [|split].
  - destruct (strip title) as [|c r] eqn:E; [now elim Hne|].
    exists c, r; split; [reflexivity|]; split.
    + eapply strip_head_nonspace; eauto.
    + rewrite <- E; apply strip_last_nonspace; now rewrite E.
  - apply rstrip_split.
  - destruct (rstrip (content_of content)) as [|c r] eqn:E; [now left|].
    right; rewrite <- E; apply rstrip_last_nonspace; now rewrite E.
Qed.

Lemma create_trims_only_whitespace_witness :
  NoteCreate.new (of_string "  To do ") (Some (of_string " - milk  "))
  = Ok (NoteCreate.mk (of_string "To do") (of_string " - milk")) /\
  exists ws,
    content_of (Some (of_string " - milk  "))
    = NoteCreate.content (NoteCreate.mk (of_string "To do")
                                        (of_string " - milk")) ++ ws /\
    all_space ws = true.
Proof.
  split; [reflexivity|].
  apply (create_trims_only_whitespace (of_string "  To do ")
           (Some (of_string " - milk  "))
           (NoteCreate.mk (of_string "To do") (of_string " - milk"))).
  reflexivity.
Defined.

(** X3.  Normalisation is idempotent: the fields of an accepted create
    payload, of an accepted update payload and of a constructed note pass
    validation again and come back unchanged. *)
Theorem validation_idempotent :
  (forall title content p,
      NoteCreate.new title content = Ok p ->
      NoteCreate.new (NoteCreate.title p) (Some (NoteCreate.content p))
      = Ok p) /\
  (forall title content p,
      NoteUpdate.new title content = Ok p ->
      NoteUpdate.new (NoteUpdate.title p) (NoteUpdate.content p) = Ok p) /\
  (forall i t c ca ua n,
      Note.new i t c ca ua = Ok n ->
      Note.new (Note.id n) (Note.title n) (Note.content n)
               (Note.created_at n) (Note.updated_at n) = Ok n).
Proof.
  split; [|split].
  - intros title content p Hp.
    apply NoteCreate_new_Ok in Hp as (Hl & Hne & Hc).
    assert (p = NoteCreate.mk (strip title) (rstrip (content_of content)) /\
            content_len_ok content) as [-> Hlen]
        by (destruct content as [c|]; [destruct Hc as [? ->] | subst p];
            simpl; auto).
    apply NoteCreate_new_Ok; simpl.
    rewrite strip_idem, rstrip_idem.
    assert (1 <= len (strip title) <= 200)%Z
      by (apply strip_len_bounds; [lia | exact Hne]).
    repeat split; auto; try lia.
    destruct content as [c|]; simpl in *;
      [pose proof (len_rstrip_le c); lia | unfold len; simpl; lia].
  - intros title content p Hp.
    apply NoteUpdate_new_Ok in Hp as (t' & c' & Et & Ec & ->).
    apply NoteUpdate_title_field_Ok in Et.
    apply NoteUpdate_content_field_Ok in Ec.
    apply NoteUpdate_new_Ok; exists t', c'; simpl.
    split; [|split; [|reflexivity]].
    + apply NoteUpdate_title_field_Ok.
      destruct title as [t|]; [destruct Et as (Hl & Hne & ->) | now subst t'].
      rewrite strip_idem; repeat split; auto;
        apply strip_len_bounds; auto; lia.
    + apply NoteUpdate_content_field_Ok.
      destruct content as [c|]; [destruct Ec as (Hl & ->) | now subst c'].
      rewrite rstrip_idem; split; [|reflexivity].
      pose proof (len_rstrip_le c); lia.
  - intros i t c ca ua n Hn.
    pose proof (Note_new_ok _ _ _ _ _ _ Hn) as (Hs & Hne & Hl & Hr & Hc).
    destruct n as [i' t' c' ca' ua']; simpl in *.
    apply Note_new_fixpoint; auto; lia.
Qed.

Lemma validation_idempotent_witness :
  NoteUpdate.new (Some (of_string " Tea ")) (Some (of_string "green  "))
  = Ok (NoteUpdate.mk (Some (of_string "Tea")) (Some (of_string "green"))) /\
  NoteUpdate.new (Some (of_string "Tea")) (Some (of_string "green"))
  = Ok (NoteUpdate.mk (Some (of_string "Tea")) (Some (of_string "green"))).
Proof.
  split; [reflexivity|].
  apply (proj1 (proj2 validation_idempotent)
               (Some (of_string " Tea ")) (Some (of_string "green  "))
               (NoteUpdate.mk (Some (of_string "Tea"))
                              (Some (of_string "green")))).
  reflexivity.
Defined.

End Normalisation.

(* ================================================================== *)
(** * The repository as an ordered collection *)
(* ================================================================== *)

Section OrderedStore.

Import Repository Trace.

Lemma set_absent k v d :
  Dict.get k d = None -> Dict.set k v d = d ++ [(k, v)].
Proof.
  induction d as [|[k' v'] r IH]; simpl; [reflexivity|].
  destruct (N.eqb_spec k k'); [discriminate|].
  intro H; now rewrite IH.
Qed.

Lemma set_present k v d old :
  Dict.get k d = Some old ->
  exists d1 d2,
    d = d1 ++ (k, old) :: d2 /\ Dict.set k v d = d1 ++ (k, v) :: d2 /\
    Dict.get k d1 = None.
Proof.
  induction d as [|[k' v'] r IH]; simpl; [discriminate|].
  destruct (N.eqb_spec k k') as [->|Hne].
  - intros [= ->]; now exists [], r.
  - intro H; destruct (IH H) as (d1 & d2 & -> & -> & Hd1).
    exists ((k', v') :: d1), d2; simpl.
    destruct (N.eqb_spec k k'); [contradiction | auto].
Qed.

Lemma del_present k d old :
  Dict.get k d = Some old ->
  exists d1 d2,
    d = d1 ++ (k, old) :: d2 /\ Dict.del k d = d1 ++ d2 /\
    Dict.get k d1 = None.
Proof.
  induction d as [|[k' v'] r IH]; simpl; [discriminate|].
  destruct (N.eqb_spec k k') as [->|Hne].
  - intros [= ->]; now exists [], r.
  - intro H; destruct (IH H) as (d1 & d2 & -> & -> & Hd1).
    exists ((k', v') :: d1), d2; simpl.
    destruct (N.eqb_spec k k'); [contradiction | auto].
Qed.

Lemma values_app (d1 d2 : Dict.t) :
  Dict.values (d1 ++ d2) = Dict.values d1 ++ Dict.values d2.
Proof. apply map_app. Qed.

Lemma In_get_unique k n d :
  NoDup (Dict.keys d) -> In (k, n) d -> Dict.get k d = Some n.
Proof.
  induction d as [|[k' v'] r IH]; simpl; [tauto|].
  intros Hnd [E|Hin]; inversion Hnd as [|? ? Hni Hnd']; subst.
  - injection E as -> ->; now rewrite N.eqb_refl.
  - destruct (N.eqb_spec k k') as [->|Hne]; [|auto].
    elim Hni; change k' with (fst (k', n)); now apply in_map.
Qed.

Lemma ids_are_keys (d : Dict.t) :
  (forall k n, In (k, n) d -> Note.id n = k) ->
  map Note.id (Dict.values d) = Dict.keys d.
Proof.
  induction d as [|[k v] r IH]; simpl; intro H; [reflexivity|].
  rewrite (H k v) by now left.
  f_equal; apply IH; intros; apply H; now right.
Qed.

(** X4.  In every store state reached by create, update and delete
    requests, the listed notes have pairwise distinct ids, each is the note
    that a lookup of its id returns, and each respects the bounds of the
    schema: a trimmed title of 1 to 200 characters and a right-stripped
    content of at most 10000. *)
Theorem stored_notes_wellformed (st : store) :
  reachable st ->
  NoDup (map Note.id (Dict.values st)) /\
  forall n,
    In n (Dict.values st) ->
    Dict.get (Note.id n) st = Some n /\
    strip (Note.title n) = Note.title n /\
    (1 <= len (Note.title n) <= 200)%Z /\
    rstrip (Note.content n) = Note.content n /\
    (len (Note.content n) <= 10000)%Z.
Proof.
  intro Hr; apply reachable_store_ok in Hr as [Hnd Hall]; split.
  - rewrite ids_are_keys; [exact Hnd | intros k n H; now apply Hall].
  - intros n Hin; apply In_values_iff in Hin as [k Hin].
    destruct (Hall k n Hin) as (Hid & Hs & _ & Hl & Hr & Hc).
    rewrite Hid; split; [now apply In_get_unique | auto].
Qed.

Lemma stored_notes_wellformed_witness :
  reachable (run [Create 1 7 (of_string " a ") (Some (of_string "x "));
                  Create 2 8 (of_string "b") None;
                  Update 3 7 (Some (of_string "c  ")) None;
                  Delete 8]) /\
  NoDup (map Note.id
             (Dict.values
                (run [Create 1 7 (of_string " a ") (Some (of_string "x "));
                      Create 2 8 (of_string "b") None;
                      Update 3 7 (Some (of_string "c  ")) None;
                      Delete 8]))) /\
  Dict.values (run [Create 1 7 (of_string " a ") (Some (of_string "x "));
                    Create 2 8 (of_string "b") None;
                    Update 3 7 (Some (of_string "c  ")) None;
                    Delete 8])
  = [Note.mk 7%N (of_string "c") (of_string "x") 1%Z 3%Z].
Proof.
  split; [eexists; reflexivity|].
  split; [|reflexivity].
  apply (stored_notes_wellformed
           (run [Create 1 7 (of_string " a ") (Some (of_string "x "));
                 Create 2 8 (of_string "b") None;
                 Update 3 7 (Some (of_string "c  ")) None;
                 Delete 8])).
  eexists; reflexivity.
Defined.

(** X5.  A valid create request under an id the store does not hold puts
    the new note at the end of the listing; under an id it does hold (a
    collision of [uuid4()]) it replaces the note of that id where it stands,
    the earlier note being lost.  Either way no other id is touched. *)
Theorem create_appends_or_replaces (now : datetime) (fresh : UUID)
        (title : pystr) (content : option pystr) (p : NoteCreate.t)
        (st : store) :
  NoteCreate.new title content = Ok p ->
  exists n st',
    Router.create_note now fresh title content st = (Ok n, st') /\
    (Dict.get fresh st = None ->
     Dict.values st' = Dict.values st ++ [n]) /\
    (forall old,
        Dict.get fresh st = Some old ->
        exists l1 l2,
          Dict.values st = l1 ++ old :: l2 /\
          Dict.values st' = l1 ++ n :: l2) /\
    (forall k, k <> fresh -> Dict.get k st' = Dict.get k st).
Proof.
  intro Hp.
  pose proof (router_create_note_valid now fresh title content p st Hp) as Hc.
  cbv zeta in Hc; eexists; eexists; split; [exact Hc|].
  split; [|split].
  - intro Hg; rewrite (set_absent _ _ _ Hg), values_app; reflexivity.
  - intros old Hg.
    destruct (set_present fresh
                (Note.mk fresh (NoteCreate.title p) (NoteCreate.content p)
                         now now) st old Hg) as (d1 & d2 & -> & -> & _).
    exists (Dict.values d1), (Dict.values d2); rewrite !values_app; auto.
  - intros k Hk; now apply get_set_other.
Qed.

Lemma create_appends_or_replaces_witness :
  NoteCreate.new (of_string "b") None = Ok (NoteCreate.mk (of_string "b") []) /\
  exists n st',
    Router.create_note 2%Z 8%N (of_string "b") None
                       (run [Create 1 7 (of_string "a") None])
    = (Ok n, st') /\
    Dict.values st'
    = Dict.values (run [Create 1 7 (of_string "a") None]) ++ [n].
Proof.
  split; [reflexivity|].
  destruct (create_appends_or_replaces 2%Z 8%N (of_string "b") None
              (NoteCreate.mk (of_string "b") [])
              (run [Create 1 7 (of_string "a") None]) eq_refl)
    as (n & st' & Hc & Happ & _).
  exists n, st'; split; [exact Hc | apply Happ; reflexivity].
Defined.

(** X6.  Deleting a note that is in the store removes that note and nothing
    else: the listing loses exactly that entry and keeps the order of the
    others, the note is no longer listed, and every other id still gives the
    note it gave. *)
Theorem delete_removes_exactly_one (st : store) (note_id : UUID)
        (note : Note.t) :
  reachable st ->
  Dict.get note_id st = Some note ->
  exists st' l1 l2,
    Service.delete_note note_id st = (Ok tt, st') /\
    Dict.values st = l1 ++ note :: l2 /\
    Dict.values st' = l1 ++ l2 /\
    ~ In note (Dict.values st') /\
    (forall k, k <> note_id -> Dict.get k st' = Dict.get k st).
Proof.
  intros Hr Hg.
  pose proof (reachable_store_ok _ Hr) as Hok.
  destruct (del_present _ _ _ Hg) as (d1 & d2 & E & Ed & _).
  exists (Dict.del note_id st), (Dict.values d1), (Dict.values d2).
  rewrite delete_note_eq; unfold Dict.mem; rewrite Hg.
  split; [reflexivity|].
  split; [rewrite E at 1; now rewrite values_app|].
  split; [now rewrite Ed, values_app|].
  split; [|intros k Hk; now apply get_del_other].
  intro Hin; apply In_values_iff in Hin as [k Hin].
  assert (store_ok (Dict.del note_id st)) as [Hnd' Hall'] by now apply store_ok_del.
  destruct (Hall' k note Hin) as [Hid _].
  destruct (store_ok_get _ _ _ Hok Hg) as [Hid' _].
  assert (k = note_id) as -> by congruence.
  apply In_get_unique in Hin; [|exact Hnd'].
  destruct Hok as [Hnd _].
  rewrite get_del_same in Hin by exact Hnd; discriminate.
Qed.

Lemma delete_removes_exactly_one_witness :
  reachable (run [Create 1 7 (of_string "a") None;
                  Create 2 8 (of_string "b") None;
                  Create 3 9 (of_string "c") None]) /\
  exists st' l1 l2,
    Service.delete_note 8%N (run [Create 1 7 (of_string "a") None;
                                  Create 2 8 (of_string "b") None;
                                  Create 3 9 (of_string "c") None])
    = (Ok tt, st') /\
    Dict.values (run [Create 1 7 (of_string "a") None;
                      Create 2 8 (of_string "b") None;
                      Create 3 9 (of_string "c") None])
    = l1 ++ Note.mk 8%N (of_string "b") [] 2%Z 2%Z :: l2 /\
    Dict.values st' = l1 ++ l2.
Proof.
  split; [eexists; reflexivity|].
  destruct (delete_removes_exactly_one
              (run [Create 1 7 (of_string "a") None;
                    Create 2 8 (of_string "b") None;
                    Create 3 9 (of_string "c") None])
              8%N (Note.mk 8%N (of_string "b") [] 2%Z 2%Z))
    as (st' & l1 & l2 & Hd & Hv & Hv' & _).
  - eexists; reflexivity.
  - reflexivity.
  - exists st', l1, l2; auto.
Defined.

End OrderedStore.

(* ================================================================== *)
(** * Updates, failures and what a request may touch *)
(* ================================================================== *)

Section RequestEffects.

Import Repository Trace.

(** X7.  An update of a note that is in the store, with a payload that
    passed validation, always succeeds: the note keeps its id and
    [created_at], takes the trimmed title and the right-stripped content
    where the request gives them and keeps its own where it does not, and
    gets the clock reading as [updated_at].  It keeps its place in the
    listing, and no other id is touched. *)
Theorem valid_update_succeeds (now : datetime) (note_id : UUID)
        (title content : option pystr) (p : NoteUpdate.t) (st : store)
        (existing : Note.t) :
  reachable st ->
  Dict.get note_id st = Some existing ->
  NoteUpdate.new title content = Ok p ->
  exists updated st' l1 l2,
    Router.update_note now note_id title content st = (Ok updated, st') /\
    updated = Note.mk (Note.id existing)
                match title with
                | None => Note.title existing | Some t => strip t end
                match content with
                | None => Note.content existing | Some c => rstrip c end
                (Note.created_at existing) now /\
    Dict.values st = l1 ++ existing :: l2 /\
    Dict.values st' = l1 ++ updated :: l2 /\
    (forall k, k <> note_id -> Dict.get k st' = Dict.get k st).
Proof.
  intros Hr Hg Hp; apply reachable_store_ok in Hr.
  pose proof (router_update_note_valid now note_id title content p st
                existing Hr Hg Hp) as Hu; cbv zeta in Hu.
  destruct (set_present note_id
              (Note.mk (Note.id existing)
                 match title with
                 | None => Note.title existing | Some t => strip t end
                 match content with
                 | None => Note.content existing | Some c => rstrip c end
                 (Note.created_at existing) now) st existing Hg)
    as (d1 & d2 & E & Es & _).
  eexists; eexists; exists (Dict.values d1), (Dict.values d2).
  split; [exact Hu|]; split; [reflexivity|].
  split; [rewrite E at 1; now rewrite values_app|].
  split; [now rewrite Es, values_app|].
  intros k Hk; now apply get_set_other.
Qed.

Lemma valid_update_succeeds_witness :
  reachable (run [Create 1 7 (of_string "a") (Some (of_string "x"));
                  Create 2 8 (of_string "b") None]) /\
  exists updated st',
    Router.update_note 5%Z 7%N (Some (of_string " A2 ")) None
      (run [Create 1 7 (of_string "a") (Some (of_string "x"));
            Create 2 8 (of_string "b") None])
    = (Ok updated, st') /\
    updated = Note.mk 7%N (of_string "A2") (of_string "x") 1%Z 5%Z.
Proof.
  split; [eexists; reflexivity|].
  destruct (valid_update_succeeds 5%Z 7%N (Some (of_string " A2 ")) None
              (NoteUpdate.mk (Some (of_string "A2")) None)
              (run [Create 1 7 (of_string "a") (Some (of_string "x"));
                    Create 2 8 (of_string "b") None])
              (Note.mk 7%N (of_string "a") (of_string "x") 1%Z 1%Z))
    as (u & st' & l1 & l2 & Hu & Eu & _).
  - eexists; reflexivity.
  - reflexivity.
  - reflexivity.
  - exists u, st'; split; [exact Hu | exact Eu].
Defined.

Lemma Note_new_raises i t c ca ua e :
  Note.new i t c ca ua = Raise e -> e = ValidationError.
Proof.
  unfold Note.new.
  destruct (NoteBase.title_field t) as [t'|e'] eqn:Et; cbn [rbind].
  - destruct (NoteBase.content_field (Some c)) as [c'|e'] eqn:Ec; cbn [rbind];
      [discriminate | intros [= <-]; eapply content_field_Raise; eauto].
  - intros [= <-]; eapply title_field_Raise; eauto.
Qed.

(** X8.  A request that fails changes nothing, in any store: when a
    handler raises, the store it leaves is the store it found.  Create fails
    only with [ValidationError], get and delete only with [NotFound], update
    with one of the two.  Get and list leave the store as it was also when
    they succeed. *)
Theorem failed_request_changes_nothing (st : store) :
  (forall now fresh title content e st',
      Router.create_note now fresh title content st = (Raise e, st') ->
      e = ValidationError /\ st' = st) /\
  (forall now note_id title content e st',
      Router.update_note now note_id title content st = (Raise e, st') ->
      (e = ValidationError \/ e = NotFound) /\ st' = st) /\
  (forall note_id e st',
      Router.delete_note note_id st = (Raise e, st') ->
      e = NotFound /\ st' = st) /\
  (forall note_id r st',
      Router.get_note note_id st = (r, st') ->
      st' = st /\ (forall e, r = Raise e -> e = NotFound)) /\
  (forall lower q r st',
      Router.list_notes lower q st = (r, st') ->
      st' = st /\ exists notes, r = Ok notes).
Proof.
  split; [|split; [|split; [|split]]].
  - intros now fresh t c e st'; rewrite router_create_note_eq.
    destruct (NoteCreate.new t c) as [p|e0] eqn:Ep.
    + rewrite create_note_eq.
      destruct (Note.new _ _ _ _ _) as [n|e1] eqn:En; [discriminate|].
      intros [= <- <-]; split; [eapply Note_new_raises; eauto | reflexivity].
    + intros [= <- <-]; split; [eapply NoteCreate_new_Raise; eauto | reflexivity].
  - intros now k t c e st'; rewrite router_update_note_eq.
    destruct (NoteUpdate.new t c) as [p|e0] eqn:Ep.
    + rewrite update_note_eq.
      destruct (Dict.get k st) as [ex|]; [|intros [= <- <-]; auto].
      destruct (Note.new _ _ _ _ _) as [n|e1] eqn:En; [discriminate|].
      intros [= <- <-]; split; [left; eapply Note_new_raises; eauto | reflexivity].
    + intros [= <- <-]; split;
        [left; eapply NoteUpdate_new_Raise; eauto | reflexivity].
  - intros k e st'; unfold Router.delete_note; rewrite delete_note_eq.
    destruct (Dict.mem k st); [discriminate | intros [= <- <-]; auto].
  - intros k r st'; unfold Router.get_note; rewrite get_note_eq.
    destruct (Dict.get k st); intros [= <- <-]; split; auto;
      intros e [= <-]; reflexivity.
  - intros lower q r st' H.
    destruct q as [[|c q]|]; injection H as <- <-; split; eauto.
Qed.

Lemma failed_request_changes_nothing_witness :
  Router.update_note 5%Z 9%N (Some (of_string "t")) None
    (run [Create 1 7 (of_string "a") None])
  = (Raise NotFound, run [Create 1 7 (of_string "a") None]) /\
  (NotFound = ValidationError \/ NotFound = NotFound) /\
  run [Create 1 7 (of_string "a") None]
  = run [Create 1 7 (of_string "a") None].
Proof.
  split; [reflexivity|].
  apply (proj1 (proj2 (failed_request_changes_nothing
                         (run [Create 1 7 (of_string "a") None])))
               5%Z 9%N (Some (of_string "t")) None NotFound
               (run [Create 1 7 (of_string "a") None])).
  reflexivity.
Defined.

(** X9.  An update request whose title is present and blank fails with
    [ValidationError] and leaves the store as it was, whether or not the id
    has a note: the payload is validated before the id is looked up, so on a
    missing id the failure is [ValidationError], not [NotFound]. *)
Theorem blank_title_update_rejected (now : datetime) (note_id : UUID)
        (title : pystr) (content : option pystr) (st : store) :
  strip title = [] ->
  Router.update_note now note_id (Some title) content st
  = (Raise ValidationError, st).
Proof.
  intro Hs; rewrite router_update_note_eq.
  destruct (NoteUpdate.new (Some title) content) as [p|e] eqn:E.
  - apply NoteUpdate_new_Ok in E as (t' & c' & Et & _).
    apply NoteUpdate_title_field_Ok in Et as (_ & Hne & _); contradiction.
  - now rewrite (NoteUpdate_new_Raise _ _ _ E).
Qed.

Lemma blank_title_update_rejected_witness :
  strip (of_string " ") = [] /\
  Router.update_note 5%Z 9%N (Some (of_string " ")) None Repository.init
  = (Raise ValidationError, Repository.init).
Proof.
  split; [reflexivity|].
  apply (blank_title_update_rejected 5%Z 9%N (of_string " ")); reflexivity.
Defined.

(** X10.  Get and list agree: in a reachable store, get of an id returns a
    note exactly when the listing holds that note and the note carries that
    id. *)
Theorem get_agrees_with_list (st : store) (note_id : UUID) (note : Note.t) :
  reachable st ->
  (Service.get_note note_id st = (Ok note, st) <->
   exists notes,
     Service.list_notes st = (Ok notes, st) /\
     In note notes /\ Note.id note = note_id).
Proof.
  intro Hr; apply reachable_store_ok in Hr as Hok.
  rewrite get_note_eq; split.
  - destruct (Dict.get note_id st) as [n|] eqn:Hg; [|discriminate].
    intros [= ->]; exists (Dict.values st); split; [reflexivity|].
    destruct (store_ok_get _ _ _ Hok Hg) as [Hid _].
    split; [eapply get_In_values; eauto | exact Hid].
  - intros (notes & [= <-] & Hin & Hid).
    apply In_values_iff in Hin as [k Hin].
    destruct Hok as [Hnd Hall].
    destruct (Hall k note Hin) as [Hid' _].
    assert (k = note_id) as -> by congruence.
    now rewrite (In_get_unique _ _ _ Hnd Hin).
Qed.

Lemma get_agrees_with_list_witness :
  reachable (run [Create 1 7 (of_string "a") None;
                  Create 2 8 (of_string "b") None]) /\
  Service.get_note 8%N (run [Create 1 7 (of_string "a") None;
                             Create 2 8 (of_string "b") None])
  = (Ok (Note.mk 8%N (of_string "b") [] 2%Z 2%Z),
     run [Create 1 7 (of_string "a") None; Create 2 8 (of_string "b") None]).
Proof.
  split; [eexists; reflexivity|].
  apply (get_agrees_with_list
           (run [Create 1 7 (of_string "a") None;
                 Create 2 8 (of_string "b") None]) 8%N
           (Note.mk 8%N (of_string "b") [] 2%Z 2%Z)).
  - eexists; reflexivity.
  - eexists; split; [reflexivity|]; split; [right; left|]; reflexivity.
Defined.

(** X11.  A note's identity is kept: when a note is in a reachable store
    and its id still has a note after one more request, that note has the
    same id and the same [created_at], unless the request was a create that
    drew that very id; and it is the same note in every field unless the
    request was an update of that id. *)
Theorem note_identity_kept (st : store) (r : request) (note_id : UUID)
        (before after : Note.t) :
  reachable st ->
  Dict.get note_id st = Some before ->
  Dict.get note_id (handle st r) = Some after ->
  (forall now title content, r <> Create now note_id title content) ->
  Note.id after = Note.id before /\
  Note.created_at after = Note.created_at before /\
  ((forall now title content, r <> Update now note_id title content) ->
   after = before).
Proof.
  intros Hr Hb Ha Hcreate.
  apply reachable_store_ok in Hr as [Hnd _].
  destruct (handle_cases st r) as [E | [(k & n & E & Hn) | (k & -> & E)]];
    rewrite E in Ha.
  - assert (after = before) as -> by congruence; auto.
  - destruct (N.eq_dec k note_id) as [->|Hne].
    + destruct r as [now fresh t c | now k0 t c | k0].
      * destruct Hn as [-> _]; elim (Hcreate now t c); reflexivity.
      * destruct Hn as (-> & ex & t' & c' & Hg & En).
        rewrite get_set_same in Ha; injection Ha as ->.
        assert (ex = before) as -> by congruence.
        apply Note_new_Ok in En as (_ & _ & _ & ->); simpl.
        split; [reflexivity|]; split; [reflexivity|].
        intro Hupd; elim (Hupd now t c); reflexivity.
      * contradiction.
    + rewrite get_set_other in Ha by auto.
      assert (after = before) as -> by congruence; auto.
  - destruct (N.eq_dec k note_id) as [->|Hne].
    + rewrite get_del_same in Ha by exact Hnd; discriminate.
    + rewrite get_del_other in Ha by auto.
      assert (after = before) as -> by congruence; auto.
Qed.

Lemma note_identity_kept_witness :
  reachable (run [Create 1 7 (of_string "a") None]) /\
  Dict.get 7%N (handle (run [Create 1 7 (of_string "a") None])
                       (Update 4 7 (Some (of_string "b")) None))
  = Some (Note.mk 7%N (of_string "b") [] 1%Z 4%Z) /\
  Note.created_at (Note.mk 7%N (of_string "b") [] 1%Z 4%Z)
  = Note.created_at (Note.mk 7%N (of_string "a") [] 1%Z 1%Z).
Proof.
  split; [eexists; reflexivity|].
  split; [reflexivity|].
  apply (note_identity_kept (run [Create 1 7 (of_string "a") None])
           (Update 4 7 (Some (of_string "b")) None) 7%N
           (Note.mk 7%N (of_string "a") [] 1%Z 1%Z)
           (Note.mk 7%N (of_string "b") [] 1%Z 4%Z)).
  - eexists; reflexivity.
  - reflexivity.
  - reflexivity.
  - intros; discriminate.
Defined.

End RequestEffects.

(* ================================================================== *)
(** * More on listing *)
(* ================================================================== *)

Section ListingMore.

Import Repository PyStrExt.

Variable lower : pystr -> pystr.

Lemma substring_trans (a b c : pystr) :
  substring a b -> substring b c -> substring a c.
Proof.
  intros (p1 & s1 & ->) (p2 & s2 & ->).
  exists (p2 ++ p1), (s1 ++ s2); now rewrite <- !app_assoc.
Qed.

(** X12.  The list handler of the router module that is not mounted,
    [routers/notes.py], answers as the mounted one does, for every filter
    and every store: its extra test of the normalised filter changes
    nothing. *)
Theorem alt_list_handler_agrees (q : option pystr) (st : store) :
  Router.list_notes_alt lower q st = Router.list_notes lower q st.
Proof.
  destruct q as [[|c q]|]; try reflexivity.
  unfold Router.list_notes_alt, Router.list_notes, bind, ret; simpl.
  destruct (lower (strip (c :: q))) as [|a r] eqn:E; [|reflexivity].
  rewrite filter_all; [reflexivity | intros; apply contains_empty].
Qed.

(** X13.  Refining a filter never adds notes: when the normalised form of
    one filter occurs inside the normalised form of a second, non-empty
    filter, every note listed for the second is listed for the first. *)
Theorem narrower_filter_fewer_notes (q1 q2 : pystr) (st : store)
        (notes1 notes2 : list Note.t) :
  q2 <> [] ->
  substring (lower (strip q1)) (lower (strip q2)) ->
  Router.list_notes lower (Some q1) st = (Ok notes1, st) ->
  Router.list_notes lower (Some q2) st = (Ok notes2, st) ->
  incl notes2 notes1.
Proof.
  intros Hq2 Hsub H1 H2.
  rewrite list_notes_truthy in H2 by exact Hq2; injection H2 as <-.
  destruct q1 as [|c q1].
  - injection H1 as <-; intros n Hin; apply filter_In in Hin; tauto.
  - rewrite list_notes_truthy in H1 by discriminate; injection H1 as <-.
    intros n Hin; apply filter_In in Hin as [Hin Hc]; apply filter_In.
    split; [exact Hin|].
    apply contains_iff; apply contains_iff in Hc.
    eapply substring_trans; eauto.
Qed.

(** X14.  Whitespace around the filter does not count: a filter with
    whitespace before and after it lists what the filter alone lists. *)
Theorem filter_ignores_padding (ws1 q ws2 : pystr) (st : store) :
  lower [] = [] ->
  all_space ws1 = true -> all_space ws2 = true ->
  Router.list_notes lower (Some (ws1 ++ q ++ ws2)) st
  = Router.list_notes lower (Some q) st.
Proof.
  intros Hlow H1 H2; destruct q as [|c q].
  - transitivity (Ok (Dict.values st), st); [|reflexivity].
    apply list_notes_blank; [exact Hlow | now rewrite strip_padding].
  - etransitivity; [apply list_notes_truthy; destruct ws1; discriminate|].
    symmetry; etransitivity; [apply list_notes_truthy; discriminate|].
    now rewrite strip_padding.
Qed.

End ListingMore.

Lemma narrower_filter_fewer_notes_witness :
  of_string "noteb" <> [] /\
  incl [Note.mk 11%N (of_string "Notebook") [] 1%Z 1%Z]
       [Note.mk 11%N (of_string "Notebook") [] 1%Z 1%Z;
        Note.mk 13%N (of_string "NOTES") [] 3%Z 3%Z;
        Note.mk 14%N (of_string "do not disturb") [] 4%Z 4%Z].
Proof.
  split; [discriminate|].
  apply (narrower_filter_fewer_notes lower_ascii
           (of_string " NoT ") (of_string "noteb")
           (Trace.run [Trace.Create 1 11 (of_string "Notebook") None;
                       Trace.Create 2 12 (of_string "Grocery list") None;
                       Trace.Create 3 13 (of_string "NOTES") None;
                       Trace.Create 4 14 (of_string "do not disturb") None])).
  - discriminate.
  - exists [], (of_string "eb"); reflexivity.
  - reflexivity.
  - reflexivity.
Defined.

Lemma filter_ignores_padding_witness :
  lower_ascii [] = [] /\
  Router.list_notes lower_ascii (Some (of_string "  not  "))
    (Trace.run [Trace.Create 1 11 (of_string "Notebook") None;
                Trace.Create 2 12 (of_string "Grocery list") None])
  = Router.list_notes lower_ascii (Some (of_string "not"))
      (Trace.run [Trace.Create 1 11 (of_string "Notebook") None;
                  Trace.Create 2 12 (of_string "Grocery list") None]).
Proof.
  split; [reflexivity|].
  apply (filter_ignores_padding lower_ascii (of_string "  ") (of_string "not")
           (of_string "  ")); reflexivity.
Defined.

(* ================================================================== *)
(** * Logging configuration *)
(* ================================================================== *)

Section Logging.

Import PyStrExt LoggingConfig.

Variable upper : pystr -> pystr.

Lemma dict_get_cases (k : pystr) (d : list (pystr * Z)) (default : Z) :
  (In (k, dict_get k d default) d) \/
  (~ In k (map fst d) /\ dict_get k d default = default).
Proof.
  induction d as [|[k' v] r IH]; simpl; [right; tauto|].
  destruct (eqb k k') eqn:E.
  - apply eqb_eq in E as ->; left; now left.
  - destruct IH as [H | [H1 H2]]; [left; now right|].
    right; split; [|exact H2].
    intros [E'|H]; [|contradiction].
    simpl in E'; subst k'.
    rewrite (proj2 (eqb_eq k k) eq_refl) in E; discriminate.
Qed.

(** X15.  [_parse_log_level] never fails and always gives one of the six
    levels of [logging]; it gives [INFO] when the level is absent or empty
    and whenever the normalised text is not one of the six names. *)
Theorem parse_log_level_range (level : option pystr) :
  In (_parse_log_level upper level)
     [CRITICAL; ERROR; WARNING; INFO; DEBUG; NOTSET] /\
  (level = None \/ level = Some [] -> _parse_log_level upper level = INFO) /\
  (forall s, level = Some s ->
             ~ In (upper (strip s)) (map fst mapping) ->
             _parse_log_level upper level = INFO).
Proof.
  split; [|split].
  - destruct level as [[|c s]|]; try (simpl; tauto).
    unfold _parse_log_level; cbn [truthy negb]; cbv zeta.
    destruct (dict_get_cases (upper (strip (c :: s))) mapping INFO)
      as [H | [_ ->]]; [|simpl; tauto].
    remember (dict_get (upper (strip (c :: s))) mapping INFO) as v eqn:Ev.
    clear Ev; simpl in H.
    repeat (destruct H as [[= _ <-]|H]; [simpl; tauto|]).
    contradiction.
  - intros [-> | ->]; reflexivity.
  - intros s -> Hnot; destruct s as [|c s]; [reflexivity|].
    unfold _parse_log_level; cbn [truthy negb]; cbv zeta.
    destruct (dict_get_cases (upper (strip (c :: s))) mapping INFO)
      as [H | [_ ->]]; [|reflexivity].
    elim Hnot.
    change (upper (strip (c :: s)))
      with (fst (upper (strip (c :: s)),
                 dict_get (upper (strip (c :: s))) mapping INFO)).
    now apply in_map.
Qed.

Lemma isspace_printable (c : N) :
  (0x21 <= c <= 0x7E)%N -> isspace c = false.
Proof.
  intro H; unfold isspace.
  rewrite (proj2 (N.leb_gt c 0x0D)) by lia.
  rewrite (proj2 (N.leb_gt c 0x20)) by lia.
  rewrite (proj2 (N.eqb_neq c 0x85)) by lia.
  rewrite (proj2 (N.eqb_neq c 0xA0)) by lia.
  rewrite (proj2 (N.eqb_neq c 0x1680)) by lia.
  rewrite (proj2 (N.leb_gt 0x2000 c)) by lia.
  rewrite (proj2 (N.eqb_neq c 0x2028)) by lia.
  rewrite (proj2 (N.eqb_neq c 0x2029)) by lia.
  rewrite (proj2 (N.eqb_neq c 0x202F)) by lia.
  rewrite (proj2 (N.eqb_neq c 0x205F)) by lia.
  rewrite (proj2 (N.eqb_neq c 0x3000)) by lia.
  now rewrite !andb_false_r.
Qed.

Lemma isspace_upper_ascii (c : N) :
  isspace (if (0x61 <=? c) && (c <=? 0x7A) then c - 0x20 else c)%N
  = isspace c.
Proof.
  destruct (N.leb_spec 0x61 c), (N.leb_spec c 0x7A); simpl; try reflexivity.
  rewrite !isspace_printable; [reflexivity | lia | lia].
Qed.

Lemma strip_upper_ascii (s : pystr) :
  strip (upper_ascii s) = upper_ascii (strip s).
Proof. apply strip_map; intro c; apply isspace_upper_ascii. Qed.

Lemma is_ascii_strip (s : pystr) : is_ascii s = true -> is_ascii (strip s) = true.
Proof.
  destruct (strip_split s) as (ws1 & ws2 & E & _); intro H.
  rewrite E in H; unfold is_ascii in *.
  rewrite !forallb_app, !andb_true_iff in H; tauto.
Qed.

(** X16.  The level name is read without regard to letter case or to
    whitespace around it: for a [str.upper] that is Python's on ASCII text,
    any ASCII spelling whose upper-case form is one of the six names gives
    that name's level, with whatever whitespace before and after it. *)
Theorem parse_log_level_ignores_case_and_padding
        (ws1 s ws2 name : pystr) (lvl : Z) :
  (forall a, is_ascii a = true -> upper a = upper_ascii a) ->
  In (name, lvl) mapping ->
  is_ascii s = true ->
  upper_ascii s = name ->
  all_space ws1 = true -> all_space ws2 = true ->
  _parse_log_level upper (Some (ws1 ++ s ++ ws2)) = lvl.
Proof.
  intros Hup Hin Hascii Hname H1 H2.
  assert (strip name = name /\ name <> [] /\ dict_get name mapping INFO = lvl)
    as (Hsn & Hne & Hget).
  { simpl in Hin.
    repeat (destruct Hin as [[= <- <-]|Hin];
            [repeat split; try reflexivity; discriminate|]).
    contradiction. }
  assert (upper (strip (ws1 ++ s ++ ws2)) = name) as Hnorm.
  { rewrite strip_padding by assumption.
    rewrite Hup by now apply is_ascii_strip.
    now rewrite <- strip_upper_ascii, Hname. }
  unfold _parse_log_level.
  destruct (ws1 ++ s ++ ws2) as [|c r] eqn:E.
  - exfalso; apply Hne; rewrite <- Hname.
    destruct ws1; [|discriminate]; destruct s; [reflexivity | discriminate].
  - cbn [truthy negb]; cbv zeta; now rewrite Hnorm.
Qed.

End Logging.

Lemma parse_log_level_ignores_case_and_padding_witness :
  (forall a, is_ascii a = true ->
             PyStrExt.upper_ascii a = PyStrExt.upper_ascii a) /\
  In (of_string "WARNING", LoggingConfig.WARNING) LoggingConfig.mapping /\
  LoggingConfig._parse_log_level PyStrExt.upper_ascii
    (Some (of_string "  " ++ of_string "Warning" ++ [10%N]))
  = LoggingConfig.WARNING.
Proof.
  split; [reflexivity|].
  split; [right; right; left; reflexivity|].
  apply (parse_log_level_ignores_case_and_padding PyStrExt.upper_ascii
           (of_string "  ") (of_string "Warning") [10%N]
           (of_string "WARNING") LoggingConfig.WARNING);
    try reflexivity.
  right; right; left; reflexivity.
Defined.

Section LoggingSetup.

Import PyStrExt LoggingConfig.

Variable upper : pystr -> pystr.

(** X17.  After [configure_logging] the root logger and every one of its
    handlers are at the level read from the environment ([INFO] when the
    variable is unset).  A root logger without handlers gets exactly one; a
    root logger that has handlers gets no new one, and its handlers keep
    their formatters. *)
Theorem configure_logging_sets_levels (env : option pystr)
        (root : RootLogger) :
  level (configure_logging upper env root)
  = _parse_log_level upper
      (Some (match env with Some v => v | None => of_string "INFO" end)) /\
  Forall (fun h => handler_level h = level (configure_logging upper env root))
         (handlers (configure_logging upper env root)) /\
  length (handlers (configure_logging upper env root))
  = Nat.max 1 (length (handlers root)) /\
  (handlers root <> [] ->
   map handler_formatter (handlers (configure_logging upper env root))
   = map handler_formatter (handlers root)).
Proof.
  unfold configure_logging; cbv zeta.
  destruct (handlers root) as [|h hs] eqn:E; cbn [level handlers app].
  - repeat split; [repeat constructor | congruence].
  - split; [reflexivity|]; split; [|split].
    + apply Forall_forall; intros x Hin.
      apply in_map_iff in Hin as (y & <- & _); reflexivity.
    + rewrite length_map; simpl; reflexivity.
    + intros _; rewrite map_map; reflexivity.
Qed.

(** X18.  The last call to [configure_logging] decides: calling it again
    leaves the root logger as a single call with the later environment
    would; calling it twice with one environment changes nothing the second
    time, and no call ever adds a second handler of its own. *)
Theorem configure_logging_last_call_wins (env1 env2 : option pystr)
        (root : RootLogger) :
  configure_logging upper env2 (configure_logging upper env1 root)
  = configure_logging upper env2 root /\
  configure_logging upper env1 (configure_logging upper env1 root)
  = configure_logging upper env1 root.
Proof.
  assert (forall e1 e2,
             configure_logging upper e2 (configure_logging upper e1 root)
             = configure_logging upper e2 root) as H.
  { intros e1 e2; unfold configure_logging; cbv zeta.
    destruct (handlers root) as [|h hs] eqn:E; cbn [level handlers app map].
    - reflexivity.
    - f_equal; f_equal; rewrite map_map; reflexivity. }
  split; apply H.
Qed.

End LoggingSetup.

(* ================================================================== *)
(** * The allowed origins *)
(* ================================================================== *)

Section AllowOrigins.

Import PyStrExt.

Lemma split_no_sep (sep : N) (s piece : pystr) :
  In piece (split sep s) -> ~ In sep piece.
Proof.
  revert piece; induction s as [|c r IH]; simpl; intros piece.
  - intros [<-|[]]; tauto.
  - destruct (N.eqb_spec c sep) as [->|Hne].
    + intros [<-|H]; [tauto | now apply IH].
    + destruct (split sep r) as [|p ps] eqn:E.
      * intros [<-|[]]; simpl; intros [?|[]]; congruence.
      * intros [<-|H]; [|apply IH; now right].
        simpl; intros [?|H]; [congruence|].
        revert H; apply IH; now left.
Qed.

Lemma In_strip (s : pystr) (c : N) : In c (strip s) -> In c s.
Proof.
  destruct (strip_split s) as (ws1 & ws2 & E & _); intro H.
  rewrite E, !in_app_iff; tauto.
Qed.

Lemma split_all_blank (sep : N) (s : pystr) :
  (forall piece, In piece (split sep s) -> all_space piece = true) <->
  forallb (fun c => (c =? sep)%N || isspace c) s = true.
Proof.
  induction s as [|c r IH]; simpl.
  - split; [reflexivity | intros _ piece [<-|[]]; reflexivity].
  - destruct (N.eqb_spec c sep) as [->|Hne]; simpl.
    + rewrite <- IH; split.
      * intros H piece Hin; apply H; now right.
      * intros H piece [<-|Hin]; [reflexivity | auto].
    + rewrite andb_true_iff, <- IH.
      destruct (split sep r) as [|p ps] eqn:E; split.
      * intros H; split; [|intros ? []].
        specialize (H [c] (or_introl eq_refl)); simpl in H.
        now rewrite andb_true_r in H.
      * intros [Hc _] piece [<-|[]]; simpl; now rewrite Hc.
      * intros H; pose proof (H (c :: p) (or_introl eq_refl)) as Hp.
        simpl in Hp; apply andb_true_iff in Hp as [Hc Hp].
        split; [exact Hc|].
        intros piece [<-|Hin]; [exact Hp | apply H; now right].
      * intros [Hc H] piece [<-|Hin].
        -- simpl; rewrite Hc; apply H; now left.
        -- apply H; now right.
Qed.

Lemma filter_nil_iff {A} (f : A -> bool) (l : list A) :
  filter f l = [] <-> forall x, In x l -> f x = false.
Proof.
  induction l as [|a l IH]; simpl; [tauto|].
  destruct (f a) eqn:E; split.
  - discriminate.
  - intro H; specialize (H a (or_introl eq_refl)); congruence.
  - intros H x [<-|Hin]; [exact E | now apply IH].
  - intro H; apply IH; intros; apply H; now right.
Qed.

(** X19.  Every origin handed to the CORS middleware is non-empty, carries
    no whitespace at either end and holds no comma; when the variable is
    unset or empty the list is the single wildcard ["*"]. *)
Theorem allow_origins_wellformed (env : option pystr) :
  (forall o, In o (Main.allow_origins env) ->
             o <> [] /\ strip o = o /\ ~ In comma o) /\
  (env = None \/ env = Some [] ->
   Main.allow_origins env = [of_string "*"]).
Proof.
  split; [|intros [-> | ->]; reflexivity].
  intros o; unfold Main.allow_origins; cbv zeta.
  destruct (truthy _).
  - rewrite in_map_iff; intros (piece & <- & Hin).
    apply filter_In in Hin as [Hin Ht]; apply truthy_iff in Ht.
    split; [exact Ht|]; split; [apply strip_idem|].
    intro Hc; apply In_strip in Hc; revert Hc.
    eapply split_no_sep; eauto.
  - intros [<-|[]]; repeat split; try discriminate.
    simpl; unfold comma; intros [?|[]]; discriminate.
Qed.

Lemma allow_origins_wellformed_witness :
  In (of_string "http://b.com")
     (Main.allow_origins (Some (of_string " http://a.com , ,http://b.com,")))
  /\
  strip (of_string "http://b.com") = of_string "http://b.com".
Proof.
  split; [right; left; reflexivity|].
  apply (proj1 (allow_origins_wellformed
                  (Some (of_string " http://a.com , ,http://b.com,")))
               (of_string "http://b.com")).
  right; left; reflexivity.
Defined.

(** X20.  The list of allowed origins is empty exactly when the variable is
    set to a non-empty text made of commas and whitespace only; such a value
    does not fall back to the wildcard. *)
Theorem allow_origins_empty_iff (env : option pystr) :
  Main.allow_origins env = [] <->
  exists s,
    env = Some s /\ s <> [] /\
    forallb (fun c => (c =? comma)%N || isspace c) s = true.
Proof.
  unfold Main.allow_origins; cbv zeta; destruct env as [s|].
  - destruct s as [|c s];
      [split; [discriminate | intros (? & [= <-] & H & _); now elim H]|].
    cbn [truthy]; split.
    + intro H; exists (c :: s); split; [reflexivity|]; split; [discriminate|].
      apply split_all_blank; intros piece Hin.
      apply map_eq_nil in H.
      pose proof (proj1 (filter_nil_iff _ _) H piece Hin) as Hf.
      cbv beta in Hf; apply strip_nil_iff.
      destruct (strip piece); [reflexivity | discriminate Hf].
    + intros (s' & [= <-] & _ & H).
      assert (filter (fun o => truthy (strip o)) (split comma (c :: s)) = [])
        as ->; [|reflexivity].
      apply filter_nil_iff; intros piece Hin.
      rewrite (proj2 (strip_nil_iff piece)); [reflexivity|].
      revert piece Hin; now apply split_all_blank.
  - split; [discriminate | intros (? & [=] & _)].
Qed.

End AllowOrigins.

(* ================================================================== *)
(** * The service singleton *)
(* ================================================================== *)

Section Singleton.

Import Repository Trace.

Lemma serve_handle (g : Deps.singleton) (r : request) :
  Deps.serve g r = Some (handle (fst (Deps.get_service g)) r).
Proof.
  destruct r as [now fresh t c | now k t c | k]; simpl;
    unfold Deps.depends; destruct (Deps.get_service g) as [service g'];
    simpl;
    match goal with |- context [?m service] => destruct (m service) end;
    reflexivity.
Qed.

(** X21.  The repository behind the handlers is built once and never
    reset: [get_service] on a set global returns the service it holds and
    leaves the global alone, and after any non-empty sequence of requests
    served from an unset global, the global holds the store those requests
    build from the empty repository, so each request sees what the earlier
    ones did. *)
Theorem singleton_built_once :
  (forall service,
      Deps.get_service (Some service) = (service, Some service)) /\
  (forall rs service,
      fold_left Deps.serve rs (Some service)
      = Some (run_from service rs)) /\
  (forall rs, rs <> [] -> fold_left Deps.serve rs None = Some (run rs)).
Proof.
  assert (forall rs service,
             fold_left Deps.serve rs (Some service)
             = Some (run_from service rs)) as H.
  { induction rs as [|r rs IH]; intro service; simpl; [reflexivity|].
    rewrite serve_handle; simpl; apply IH. }
  split; [reflexivity|]; split; [exact H|].
  intros [|r rs] Hne; [now elim Hne|]; simpl.
  rewrite serve_handle; simpl; apply H.
Qed.

Lemma singleton_built_once_witness :
  [Create 1 7 (of_string "a") None; Delete 9; Update 2 7 None None] <> [] /\
  fold_left Deps.serve
            [Create 1 7 (of_string "a") None; Delete 9; Update 2 7 None None]
            None
  = Some [(7%N, Note.mk 7%N (of_string "a") [] 1%Z 2%Z)].
Proof.
  split; [discriminate|].
  rewrite (proj2 (proj2 singleton_built_once)
                 [Create 1 7 (of_string "a") None; Delete 9;
                  Update 2 7 None None]) by discriminate.
  reflexivity.
Defined.

End Singleton.

(* ================================================================== *)
(** * Many creates *)
(* ================================================================== *)

Section ManyCreates.

Import Repository Trace.

Lemma handle_valid_create (c : create_request) (st : store) :
  create_ok c ->
  handle st (as_request c) = Dict.set (fresh_of c) (note_of c) st.
Proof.
  destruct c as [[[now fresh] title] content]; intros [p Hp]; simpl.
  rewrite (router_create_note_valid _ _ _ _ _ _ Hp); cbv zeta; cbn [snd].
  apply NoteCreate_new_Ok in Hp as (_ & _ & Hc).
  destruct content as [c|]; [destruct Hc as [_ ->] | subst p]; reflexivity.
Qed.

Lemma run_from_creates (cs : list create_request) : forall st,
  Forall create_ok cs ->
  NoDup (map fresh_of cs) ->
  (forall c, In c cs -> Dict.get (fresh_of c) st = None) ->
  run_from st (map as_request cs)
  = st ++ map (fun c => (fresh_of c, note_of c)) cs.
Proof.
  induction cs as [|c cs IH]; intros st Hok Hnd Hfresh; simpl.
  - now rewrite app_nil_r.
  - inversion Hok as [|? ? Hc Hcs]; inversion Hnd as [|? ? Hni Hnd']; subst.
    rewrite (handle_valid_create _ _ Hc).
    rewrite set_absent by (apply Hfresh; now left).
    rewrite IH; [now rewrite <- app_assoc | exact Hcs | exact Hnd' |].
    intros c' Hin.
    rewrite <- (set_absent _ (note_of c) _ (Hfresh c (or_introl eq_refl))).
    rewrite get_set_other; [apply Hfresh; now right|].
    intros E; apply Hni; rewrite <- E; now apply in_map.
Qed.

(** X22.  Valid create requests that draw pairwise distinct ids, served one
    after the other from the empty repository, leave a listing with exactly
    one note per request, in the order of the requests, each with the
    request's id, trimmed title, right-stripped content and clock reading. *)
Theorem creates_listed_in_order (cs : list create_request) :
  Forall create_ok cs ->
  NoDup (map fresh_of cs) ->
  Dict.values (run (map as_request cs)) = map note_of cs /\
  length (Dict.values (run (map as_request cs))) = length cs.
Proof.
  intros Hok Hnd.
  assert (Dict.values (run (map as_request cs)) = map note_of cs) as E.
  { unfold run; rewrite run_from_creates; auto.
    unfold Dict.values; simpl; rewrite map_map; reflexivity. }
  split; [exact E | now rewrite E, length_map].
Qed.

Lemma creates_listed_in_order_witness :
  Forall create_ok [(1%Z, 7%N, of_string " a ", None);
                    (2%Z, 8%N, of_string "b", Some (of_string "x "))] /\
  NoDup (map fresh_of [(1%Z, 7%N, of_string " a ", None);
                       (2%Z, 8%N, of_string "b", Some (of_string "x "))]) /\
  Dict.values (run (map as_request
                        [(1%Z, 7%N, of_string " a ", None);
                         (2%Z, 8%N, of_string "b", Some (of_string "x "))]))
  = [Note.mk 7%N (of_string "a") [] 1%Z 1%Z;
     Note.mk 8%N (of_string "b") (of_string "x") 2%Z 2%Z].
Proof.
  assert (Forall create_ok [(1%Z, 7%N, of_string " a ", None);
                            (2%Z, 8%N, of_string "b", Some (of_string "x "))])
    as Hok by (repeat constructor; eexists; reflexivity).
  assert (NoDup (map fresh_of
                     [(1%Z, 7%N, of_string " a ", None);
                      (2%Z, 8%N, of_string "b", Some (of_string "x "))]))
    as Hnd.
  { simpl; constructor; [simpl; intros [H|[]]; discriminate H|].
    constructor; [intros [] | constructor]. }
  split; [exact Hok|]; split; [exact Hnd|].
  rewrite (proj1 (creates_listed_in_order _ Hok Hnd)); reflexivity.
Defined.

End ManyCreates.
